(** * lgr.tools.utils: label input parsing, label-set reading and LGR merging

    A shallow embedding of [lgr/tools/utils.py].

    - A Python [unicode] string is the list of its code points ([Z]), as on
      a build of the interpreter where one character is one code point;
      [ord] is then the identity and [unichr] a range check.
    - An exception is a value of [exn]; a computation that may raise returns
      a [result].
    - [read_labels] is a generator; what it does when run to its end is a
      [gen]: the items it yields, then a stop or the exception it raises.
    - [logger.error] and the calls to the collaborators ([test_label_eligible],
      [is_collision]) are recorded, in order, in a trace of [event]s.
    - The collaborators that live outside the module (the character tables
      of the interpreter, the IDNA decoder of the Unicode database, the
      eligibility test of a ruleset, [is_collision], [XMLParser],
      [merge_lgr_set]) are parameters. *)

From Stdlib Require Import ZArith Lia String Ascii.
From stdpp Require Import base tactics option list gmap sets.

Local Open Scope Z_scope.

(** ** Strings *)

Definition ustring : Type := list Z.

Fixpoint ustr (s : string) : ustring :=
  match s with
  | EmptyString => []
  | String a r => Z.of_N (N_of_ascii a) :: ustr r
  end.

Definition len {A} (l : list A) : Z := Z.of_nat (length l).

(** ** Exceptions and results *)

Inductive exn : Type :=
| ValueError (msg : ustring)
    (* ValueError and its subclasses (UnicodeError), with the message *)
| LGRInvalidLabelException (label : ustring) (msg : ustring)
| LGRLabelCollisionException
| OtherException (text : ustring).
    (* anything else a collaborator raises, with its text *)

Inductive result (A : Type) : Type :=
| Return (a : A)
| Raise (e : exn).
Arguments Return {A} a.
Arguments Raise {A} e.

Definition bind {A B} (m : result A) (k : A -> result B) : result B :=
  match m with
  | Return a => k a
  | Raise e => Raise e
  end.

Notation "'do' x <- m ; k" := (bind m (fun x => k))
  (at level 10, x name, m at level 100, k at level 200).

(** [[f(x) for x in l]]: left to right, the first exception ends it. *)
Fixpoint for_each {A B} (f : A -> result B) (l : list A) : result (list B) :=
  match l with
  | [] => Return []
  | x :: r => do y <- f x; do ys <- for_each f r; Return (y :: ys)
  end.

(** ** The interpreter's Unicode tables

    The character database of the Python interpreter is not part of the
    module.  The ASCII range is written out; beyond it the tables are
    parameters, as is the text of the exceptions the module does not raise
    itself. *)

Record Interpreter : Type := {
  ext_isspace : Z -> bool;            (* Py_UNICODE_ISSPACE, code points >= 128 *)
  ext_todecimal : Z -> option Z;      (* Py_UNICODE_TODECIMAL, code points >= 128 *)
  ext_toupper : Z -> Z;               (* Py_UNICODE_TOUPPER, code points >= 128 *)
  ext_tolower : Z -> Z;               (* Py_UNICODE_TOLOWER, code points >= 128 *)
  int_error_message : ustring -> ustring;
                                      (* text of the error of int(s, 16) *)
  lgr_exception_text : exn -> ustring (* unicode(ex) for the LGR exceptions *)
}.

Module Py.
Section Builtins.
Variable py : Interpreter.

Definition between (lo c hi : Z) : bool := (lo <=? c) && (c <=? hi).

Definition ascii_isspace (c : Z) : bool :=
  between 9 c 13 || between 28 c 31 || (c =? 32).

Definition isspace (c : Z) : bool :=
  if c <? 128 then ascii_isspace c else ext_isspace py c.

Definition ascii_toupper (c : Z) : Z := if between 97 c 122 then c - 32 else c.
Definition ascii_tolower (c : Z) : Z := if between 65 c 90 then c + 32 else c.

Definition toupper (c : Z) : Z :=
  if c <? 128 then ascii_toupper c else ext_toupper py c.

Definition tolower (c : Z) : Z :=
  if c <? 128 then ascii_tolower c else ext_tolower py c.

Definition todecimal (c : Z) : option Z :=
  if c <? 128 then (if between 48 c 57 then Some (c - 48) else None)
  else match ext_todecimal py c with
       | Some d => if between 0 d 9 then Some d else None
       | None => None
       end.

(** [s.upper()], [s.lower()] *)
Definition upper (s : ustring) : ustring := map toupper s.
Definition lower (s : ustring) : ustring := map tolower s.

Fixpoint lstrip_by (sp : Z -> bool) (s : ustring) : ustring :=
  match s with
  | [] => []
  | c :: r => if sp c then lstrip_by sp r else s
  end.

Definition strip_by (sp : Z -> bool) (s : ustring) : ustring :=
  rev (lstrip_by sp (rev (lstrip_by sp s))).

(** [s.strip()] *)
Definition strip (s : ustring) : ustring := strip_by isspace s.

(** [s.split()]: the maximal runs of non-whitespace characters. *)
Fixpoint split_aux (tok s : ustring) : list ustring :=
  match s with
  | [] => match tok with [] => [] | _ => [tok] end
  | c :: r =>
      if isspace c
      then match tok with [] => split_aux [] r | _ => tok :: split_aux [] r end
      else split_aux (tok ++ [c]) r
  end.

Definition split (s : ustring) : list ustring := split_aux [] s.

(** [s.split(sep)] for a one-character separator. *)
Fixpoint split_on_aux (sep : Z) (tok s : ustring) : list ustring :=
  match s with
  | [] => [tok]
  | c :: r =>
      if c =? sep then tok :: split_on_aux sep [] r
      else split_on_aux sep (tok ++ [c]) r
  end.

Definition split_on (sep : Z) (s : ustring) : list ustring :=
  split_on_aux sep [] s.

(** [l[-1]] of a list of strings *)
Definition last_item (l : list ustring) : ustring := List.last l [].

Definition ustring_eqb (s t : ustring) : bool := bool_decide (s = t).

(** [s.startswith(p)] *)
Fixpoint startswith (p s : ustring) : bool :=
  match p, s with
  | [], _ => true
  | _ :: _, [] => false
  | a :: p', b :: s' => (a =? b) && startswith p' s'
  end.

(** [sub in s] *)
Fixpoint contains (sub s : ustring) : bool :=
  startswith sub s ||
  match s with
  | [] => false
  | _ :: r => contains sub r
  end.

(** [s.find(sub)]: the lowest index, or -1. *)
Fixpoint find_from (i : Z) (sub s : ustring) : Z :=
  if startswith sub s then i
  else match s with
       | [] => -1
       | _ :: r => find_from (i + 1) sub r
       end.

Definition find (sub s : ustring) : Z := find_from 0 sub s.

(** [s[:n]] and [s[n:]] for [n >= 0] *)
Definition slice_to (n : Z) (s : ustring) : ustring := take (Z.to_nat n) s.
Definition slice_from (n : Z) (s : ustring) : ustring := drop (Z.to_nat n) s.

Definition ord (c : Z) : Z := c.

Definition unichr (c : Z) : result Z :=
  if between 0 c 1114111 then Return c
  else Raise (ValueError (ustr "unichr() arg not in range(0x110000)")).

(** *** [int(s, 16)]

    The string is first brought to ASCII (whitespace to a space, a decimal
    digit of any script to its ASCII digit, other Latin-1 characters kept,
    anything else refused); then, between optional whitespace: an optional
    sign, an optional [0x] before a digit, and one or more hex digits. *)

Definition hex_digit_value (c : Z) : option Z :=
  if between 48 c 57 then Some (c - 48)
  else if between 97 c 102 then Some (c - 87)
  else if between 65 c 70 then Some (c - 55)
  else None.

Definition is_hex_digit (c : Z) : bool :=
  match hex_digit_value c with Some _ => true | None => false end.

Fixpoint hex_value (acc : Z) (ds : ustring) : option Z :=
  match ds with
  | [] => Some acc
  | c :: r =>
      match hex_digit_value c with
      | Some d => hex_value (16 * acc + d) r
      | None => None
      end
  end.

Fixpoint encode_decimal (s : ustring) : option ustring :=
  match s with
  | [] => Some []
  | c :: r =>
      let enc :=
        if isspace c then Some 32
        else match todecimal c with
             | Some d => Some (48 + d)
             | None => if (0 <? c) && (c <? 256) then Some c else None
             end in
      match enc, encode_decimal r with
      | Some b, Some r' => Some (b :: r')
      | _, _ => None
      end
  end.

Definition c_isspace (c : Z) : bool := between 9 c 13 || (c =? 32).

Definition split_sign (b : ustring) : Z * ustring :=
  match b with
  | c :: r => if c =? 43 then (1, r) else if c =? 45 then (-1, r) else (1, b)
  | [] => (1, b)
  end.

Definition drop_0x (b : ustring) : ustring :=
  match b with
  | z :: x :: d :: r =>
      if (z =? 48) && ((x =? 120) || (x =? 88)) && is_hex_digit d
      then d :: r else b
  | _ => b
  end.

Definition int16 (s : ustring) : result Z :=
  let bad := Raise (ValueError (int_error_message py s)) in
  match encode_decimal s with
  | None => bad
  | Some b =>
      let '(sign, b) := split_sign (strip_by c_isspace b) in
      match drop_0x b with
      | [] => bad
      | ds => match hex_value 0 ds with
              | Some v => Return (sign * v)
              | None => bad
              end
      end
  end.

(** *** [hex(n)] *)

Definition hex_char (d : Z) : Z := if d <? 10 then 48 + d else 87 + d.

Fixpoint hex_digits_aux (fuel : nat) (n : Z) (acc : ustring) : ustring :=
  match fuel with
  | O => acc
  | S f =>
      let acc' := hex_char (n mod 16) :: acc in
      if n / 16 =? 0 then acc' else hex_digits_aux f (n / 16) acc'
  end.

(** the digits of [n >= 0], as [format(n, 'x')] gives them *)
Definition hex_digits (n : Z) : ustring :=
  hex_digits_aux (S (Z.to_nat (Z.log2 n))) n [].

Definition hex (n : Z) : ustring :=
  if n <? 0 then ustr "-0x" ++ hex_digits (- n) else ustr "0x" ++ hex_digits n.

(** Equality of strings up to the case of ASCII letters. *)
Fixpoint ci_eqb (s t : ustring) : bool :=
  match s, t with
  | [], [] => true
  | c :: s', d :: t' =>
      (c <? 128) && (d <? 128) && (ascii_toupper c =? ascii_toupper d)
      && ci_eqb s' t'
  | _, _ => false
  end.

(** [unicode(ex)] *)
Definition unicode_of_exn (e : exn) : ustring :=
  match e with
  | ValueError msg => msg
  | OtherException text => text
  | _ => lgr_exception_text py e
  end.

End Builtins.
End Py.

(** ** parse_single_cp_input, parse_codepoint_input, parse_label_input *)

Section Parsing.
Variable py : Interpreter.

Definition out_of_range_message : ustring :=
  ustr "code point value must be in the range [0, U+10FFFF]".

Definition parse_single_cp_input (s : ustring) : result Z :=
  let s := Py.strip py s in
  if len s =? 1 then
    Return (Py.ord (hd 0 s))
  else
    do v <- (if Py.ustring_eqb (Py.upper py (Py.slice_to 2 s)) (ustr "U+")
             then Py.int16 py (Py.slice_from 2 s)
             else Py.int16 py s);
    if (v <? 0) || (v >? 1114111) then
      Raise (ValueError out_of_range_message)
    else Return v.

Definition parse_codepoint_input (s : ustring) : result (list Z) :=
  for_each parse_single_cp_input (Py.split py s).

Definition spaces_message (s : ustring) : ustring :=
  ustr "Label '" ++ s ++ ustr "' contains spaces that are not PVALID for IDNA2008".

(** The result is a list of code points when [as_cp], a string otherwise;
    both are lists of code points here. *)
Definition parse_label_input (s : ustring)
    (idna_decoder : ustring -> result ustring) (as_cp : bool)
    : result ustring :=
  if Py.startswith (ustr "xn--") (Py.lower py s) then
    if as_cp then
      do u <- idna_decoder (Py.lower py s); Return (map Py.ord u)
    else idna_decoder (Py.lower py s)
  else if Py.contains (ustr " ") s || Py.contains (ustr "U+") (Py.upper py s) then
    match parse_codepoint_input s with
    | Raise e =>
        if Py.contains (ustr " ") s then Raise (ValueError (spaces_message s))
        else Raise e
    | Return label_cp =>
        if as_cp then Return label_cp
        else for_each Py.unichr label_cp
    end
  else
    if as_cp then Return (map Py.ord s) else Return s.

End Parsing.

(** ** Collaborators: Unicode database, rulesets, trace *)

Record UnicodeDatabase : Type := {
  idna_decode_label : ustring -> result ustring
}.

(** A ruleset as this module sees it: its database and its eligibility
    test.  Of the six components [test_label_eligible] returns, the callers
    here read the first ([eligible]) and the last ([logs]). *)
Record LGR : Type := {
  unicode_database : UnicodeDatabase;
  test_label_eligible : list Z -> bool * ustring
}.

Definition set_unicode_database (db : UnicodeDatabase) (l : LGR) : LGR :=
  {| unicode_database := db; test_label_eligible := test_label_eligible l |}.

Inductive event : Type :=
| LogError (msg : ustring)                  (* logger.error(msg) *)
| TestEligible (label_cp : list Z)          (* merged_lgr.test_label_eligible(label_cp) *)
| IsCollision (labels : gset ustring).      (* is_collision(merged_lgr, labels) *)

(** A computation that leaves a trace and returns or raises. *)
Definition traced (A : Type) : Type := list event * result A.

Definition tret {A} (a : A) : traced A := ([], Return a).
Definition traise {A} (e : exn) : traced A := ([], Raise e).
Definition emit (ev : event) : traced unit := ([ev], Return tt).

Definition tbind {A B} (m : traced A) (k : A -> traced B) : traced B :=
  match m with
  | (t1, Return a) => let '(t2, r) := k a in (t1 ++ t2, r)
  | (t1, Raise e) => (t1, Raise e)
  end.

Notation "'run' x <- m ; k" := (tbind m (fun x => k))
  (at level 10, x name, m at level 100, k at level 200).
Notation "'step' m ; k" := (tbind m (fun _ => k))
  (at level 10, m at level 100, k at level 200).

(** What a generator does when it is run to its end: it yields items and
    then stops, or raises. *)
Inductive gen (A : Type) : Type :=
| GStop
| GYield (a : A) (rest : gen A)
| GRaise (e : exn).
Arguments GStop {A}.
Arguments GYield {A} a rest.
Arguments GRaise {A} e.

Fixpoint gen_items {A} (g : gen A) : list A :=
  match g with
  | GYield a rest => a :: gen_items rest
  | _ => []
  end.

Fixpoint gen_raises {A} (g : gen A) : option exn :=
  match g with
  | GStop => None
  | GYield _ rest => gen_raises rest
  | GRaise e => Some e
  end.

(** ** read_labels *)

Section ReadLabels.
Variable py : Interpreter.

Fixpoint read_labels (input : list ustring) (unidb : UnicodeDatabase)
    (do_raise keep_commented : bool) : gen ustring :=
  match input with
  | [] => GStop
  | x :: input' =>
      let next := read_labels input' unidb do_raise keep_commented in
      let parse (label : ustring) :=
        if len label =? 0 then next
        else
          match parse_label_input py label (idna_decode_label unidb) false with
          | Return l => GYield l next
          | Raise ex =>
              if do_raise then GRaise ex
              else GYield (label ++ ustr ": " ++ Py.unicode_of_exn py ex) next
          end in
      let label := Py.strip py x in
      if Py.contains (ustr "#") label then
        let pos := Py.find (ustr "#") label in
        if pos =? 0 then
          if keep_commented then GYield label next else next
        else parse (Py.strip py (Py.slice_to pos label))
      else parse label
  end.

End ReadLabels.

(** ** read_set_labels and merge_lgrs *)

Section Tools.
Variable py : Interpreter.

(** [lgr.tools.diff_collisions.is_collision] *)
Variable is_collision : LGR -> gset ustring -> bool.

(** [logs.strip().split('\n')[-1]] *)
Definition last_log_line (logs : ustring) : ustring :=
  Py.last_item (Py.split_on 10 (Py.strip py logs)).

Definition not_valid_message (label line : ustring) : ustring :=
  ustr "Label " ++ label ++ ustr " from LGR set labels is not valid: " ++ line.

Definition collision_message : ustring :=
  ustr "Input label file contains collision(s)".

(** The [for] loop of [read_set_labels] over the labels read, from the
    set accumulated so far. *)
Fixpoint set_labels_loop (merged_lgr : LGR) (validate_labels do_raise : bool)
    (labels : gen ustring) (set_labels : gset ustring)
    : traced (gset ustring) :=
  match labels with
  | GStop => tret set_labels
  | GRaise e => traise e
  | GYield label rest =>
      let continue := set_labels_loop merged_lgr validate_labels do_raise rest in
      if validate_labels then
        let label_cp := map Py.ord label in
        step emit (TestEligible label_cp);
        let '(eligible, logs) := test_label_eligible merged_lgr label_cp in
        if negb eligible then
          step emit (LogError (not_valid_message label (last_log_line logs)));
          if do_raise then
            traise (LGRInvalidLabelException label (last_log_line logs))
          else continue set_labels
        else continue (set_labels ∪ {[label]})
      else continue (set_labels ∪ {[label]})
  end.

Definition read_set_labels (merged_lgr : LGR) (labels : list ustring)
    (validate_labels do_raise : bool) : traced (gset ustring) :=
  run set_labels <-
    set_labels_loop merged_lgr validate_labels do_raise
      (read_labels py labels (unicode_database merged_lgr) do_raise false) ∅;
  step (if validate_labels then
         step emit (IsCollision set_labels);
         if is_collision merged_lgr set_labels then
           step emit (LogError collision_message);
           if do_raise then traise LGRLabelCollisionException else tret tt
         else tret tt
       else tret tt);
  tret set_labels.

(** [XMLParser(lgr_file)] with its [unicode_database] attribute (when one
    was attached), [validate_document(rng)] and [parse_document()];
    [merge_lgr_set]. *)
Variable validate_document : option UnicodeDatabase -> ustring -> ustring -> option ustring.
Variable parse_document : option UnicodeDatabase -> ustring -> option LGR.
Variable merge_lgr_set : list LGR -> ustring -> LGR.

Definition truthy (s : option ustring) : bool :=
  match s with
  | Some (_ :: _) => true
  | _ => false
  end.

Definition rng_errors_message (lgr_file validation_result : ustring) : ustring :=
  ustr "Errors for RNG validation of LGR " ++ lgr_file ++ ustr ": " ++ validation_result.

Definition parse_error_message (lgr_file : ustring) : ustring :=
  ustr "Error while parsing LGR file " ++ lgr_file ++ ustr ".".

Definition check_rng_message : ustring := ustr "Please check compliance with RNG.".

(** The [for] loop of [merge_lgrs]; [None] is its early [return]. *)
Fixpoint merge_loop (input_lgrs : list ustring) (rng : option ustring)
    (unidb : option UnicodeDatabase) (lgr_set : list LGR)
    : list event * option (list LGR) :=
  match input_lgrs with
  | [] => ([], Some lgr_set)
  | lgr_file :: rest =>
      let validation_log :=
        if truthy rng then
          match validate_document unidb lgr_file (default [] rng) with
          | Some validation_result =>
              [LogError (rng_errors_message lgr_file validation_result)]
          | None => []
          end
        else [] in
      match parse_document unidb lgr_file with
      | None =>
          (validation_log ++
             [LogError (parse_error_message lgr_file); LogError check_rng_message],
           None)
      | Some lgr =>
          let '(t, r) := merge_loop rest rng unidb (lgr_set ++ [lgr]) in
          (validation_log ++ t, r)
      end
  end.

(** [None] is Python's [None]; otherwise the pair [(merged_lgr, lgr_set)]. *)
Definition merge_lgrs (input_lgrs : list ustring) (name rng : option ustring)
    (unidb : option UnicodeDatabase) : list event * option (LGR * list LGR) :=
  match merge_loop input_lgrs rng unidb [] with
  | (t, None) => (t, None)
  | (t, Some lgr_set) =>
      let name := if truthy name then default [] name else ustr "merged-lgr-set" in
      let merged_lgr := merge_lgr_set lgr_set name in
      let merged_lgr :=
        match unidb with
        | Some db => set_unicode_database db merged_lgr
        | None => merged_lgr
        end in
      (t, Some (merged_lgr, lgr_set))
  end.

End Tools.

(** An interpreter that knows ASCII only, for running examples.  The text
    of the error of int() quotes the literal, as repr does for a string with
    no quote and nothing to escape. *)
Definition ascii_only : Interpreter := {|
  ext_isspace := fun _ => false;
  ext_todecimal := fun _ => None;
  ext_toupper := fun c => c;
  ext_tolower := fun c => c;
  int_error_message := fun s =>
    ustr "invalid literal for int() with base 16: '" ++ s ++ ustr "'";
  lgr_exception_text := fun _ => []
|}.

Definition no_decoder (s : ustring) : result ustring :=
  Raise (OtherException (ustr "decoding with 'idna' codec failed")).

Definition plain_db : UnicodeDatabase := {| idna_decode_label := no_decoder |}.

(** ** Vocabulary of the statements *)

(** The lower-case hex digits, as [hex] writes them. *)
Definition lower_hex (c : Z) : bool := Py.between 48 c 57 || Py.between 97 c 102.

(** The tests of [parse_label_input], named. *)
Definition has_xn_prefix (py : Interpreter) (s : ustring) : bool :=
  Py.startswith (ustr "xn--") (Py.lower py s).

Definition has_U_plus_ci (py : Interpreter) (s : ustring) : bool :=
  Py.contains (ustr "U+") (Py.upper py s).

(** The same two tests written out on the characters: the string starts
    with x or X, n or N and two hyphens; it has a U or u followed by a plus
    sign.  [has_xn_prefix_chars] and [has_U_plus_ci_chars] below relate them
    to the tests of the code. *)
Definition starts_xn_chars (s : ustring) : bool :=
  match s with
  | x :: n :: h1 :: h2 :: _ =>
      ((x =? 120) || (x =? 88)) && ((n =? 110) || (n =? 78))
      && (h1 =? 45) && (h2 =? 45)
  | _ => false
  end.

Fixpoint contains_U_plus_chars (s : ustring) : bool :=
  match s with
  | [] => false
  | u :: r =>
      match r with
      | p :: _ => ((u =? 85) || (u =? 117)) && (p =? 43)
      | [] => false
      end || contains_U_plus_chars r
  end.

(** The label a line carries, once stripped and cut at its comment: none
    for a full-line comment and for a line with nothing left. *)
Definition label_of_line (py : Interpreter) (x : ustring) : option ustring :=
  let label := Py.strip py x in
  let label :=
    if Py.contains (ustr "#") label then
      let pos := Py.find (ustr "#") label in
      if pos =? 0 then [] else Py.strip py (Py.slice_to pos label)
    else label in
  if len label =? 0 then None else Some label.

(** What a line contributes when errors are not raised. *)
Definition lenient_items (py : Interpreter) (unidb : UnicodeDatabase)
    (keep_commented : bool) (x : ustring) : list ustring :=
  let label := Py.strip py x in
  if Py.contains (ustr "#") label && (Py.find (ustr "#") label =? 0) then
    if keep_commented then [label] else []
  else
    match label_of_line py x with
    | None => []
    | Some label =>
        match parse_label_input py label (idna_decode_label unidb) false with
        | Return l => [l]
        | Raise ex => [label ++ ustr ": " ++ Py.unicode_of_exn py ex]
        end
    end.

(** [g] after the items [items]. *)
Fixpoint prepend {A} (items : list A) (g : gen A) : gen A :=
  match items with
  | [] => g
  | a :: r => GYield a (prepend r g)
  end.

(** The outcome of the eligibility test of a label, and the line of its log
    that is reported. *)
Definition eligible (lgr : LGR) (label : ustring) : bool :=
  (test_label_eligible lgr (map Py.ord label)).1.

Definition diagnostic (py : Interpreter) (lgr : LGR) (label : ustring) : ustring :=
  last_log_line py (test_label_eligible lgr (map Py.ord label)).2.

(** The sets the collision check was called on, in order. *)
Definition collision_checks (tr : list event) : list (gset ustring) :=
  flat_map (fun ev => match ev with IsCollision acc => [acc] | _ => [] end) tr.

Definition with_trace {A} (evs : list event) (m : traced A) : traced A :=
  (evs ++ m.1, m.2).

(** A code point of Unicode. *)
Definition code_point (c : Z) : Prop := 0 <= c <= 1114111.

(** The exception the label of a line makes [parse_label_input] raise, if
    any: none for a full-line comment, for a line with nothing left, and for
    a label that parses. *)
Definition line_error (py : Interpreter) (unidb : UnicodeDatabase)
    (x : ustring) : option exn :=
  let label := Py.strip py x in
  if Py.contains (ustr "#") label && (Py.find (ustr "#") label =? 0) then None
  else
    match label_of_line py x with
    | None => None
    | Some label =>
        match parse_label_input py label (idna_decode_label unidb) false with
        | Return _ => None
        | Raise ex => Some ex
        end
    end.

(** ** Rulesets and collaborators for running examples *)

(** A ruleset of the letters a to z; the log of a refusal has two lines. *)
Definition lgr_az : LGR := {|
  unicode_database := plain_db;
  test_label_eligible := fun cp =>
    if forallb (fun c => Py.between 97 c 122) cp then (true, [])
    else (false, ustr "checking label" ++ [10] ++ ustr "not in repertoire" ++ [10])
|}.

(** A collision check that reports the labels "ab" and "cd" as colliding. *)
Definition ab_cd_collide (_ : LGR) (labels : gset ustring) : bool :=
  bool_decide (ustr "ab" ∈ labels) && bool_decide (ustr "cd" ∈ labels).

(** A parser that refuses the source "bad.xml" and a merge that keeps the
    first ruleset. *)
Definition parse_all_but_bad (_ : option UnicodeDatabase) (lgr_file : ustring)
    : option LGR :=
  if Py.ustring_eqb lgr_file (ustr "bad.xml") then None else Some lgr_az.

Definition merge_first (lgr_set : list LGR) (_ : ustring) : LGR :=
  hd lgr_az lgr_set.

(** ** Tactics and lemmas on the builtins *)

Ltac zbool_step :=
  match goal with
  | |- context [?a <=? ?b] => destruct (Z.leb_spec a b)
  | |- context [?a <? ?b] => destruct (Z.ltb_spec a b)
  | |- context [?a >? ?b] => rewrite (Z.gtb_ltb a b)
  | |- context [?a =? ?b] => destruct (Z.eqb_spec a b)
  | H : context [?a <=? ?b] |- _ => destruct (Z.leb_spec a b)
  | H : context [?a <? ?b] |- _ => destruct (Z.ltb_spec a b)
  | H : context [?a =? ?b] |- _ => destruct (Z.eqb_spec a b)
  end;
  simpl in *; try lia; try discriminate.

Ltac zbool := repeat zbool_step; try lia; try reflexivity; try congruence.

Section BuiltinFacts.
Variable py : Interpreter.

Lemma map_ord (s : ustring) : map Py.ord s = s.
Proof. apply map_id. Qed.

Lemma contains_char (c : Z) (s : ustring) :
  Py.contains [c] s = true <-> c ∈ s.
Proof.
  induction s as [|d s IH]; simpl.
  - split; [discriminate | intros H; inversion H].
  - rewrite orb_true_iff, IH, elem_of_cons.
    destruct (Z.eqb_spec c d) as [->|Hne]; simpl.
    + destruct s; tauto.
    + assert (false = true <-> c = d) by (split; [discriminate | tauto]).
      destruct s; simpl in *; tauto.
Qed.

Lemma contains_char_false (c : Z) (s : ustring) :
  c ∉ s -> Py.contains [c] s = false.
Proof.
  intros H. destruct (Py.contains [c] s) eqn:E; [|done].
  apply contains_char in E. contradiction.
Qed.

Lemma lstrip_by_keep (sp : Z -> bool) (s : ustring) :
  Forall (fun c => sp c = false) s -> Py.lstrip_by sp s = s.
Proof. destruct 1 as [|c r Hc _]; simpl; [done | by rewrite Hc]. Qed.

Lemma strip_by_keep (sp : Z -> bool) (s : ustring) :
  Forall (fun c => sp c = false) s -> Py.strip_by sp s = s.
Proof.
  intros H. unfold Py.strip_by.
  rewrite (lstrip_by_keep sp s H), lstrip_by_keep, rev_involutive; [done|].
  by apply Forall_rev.
Qed.

Lemma strip_single (c : Z) : Py.isspace py c = false -> Py.strip py [c] = [c].
Proof. intros H. apply strip_by_keep. by constructor. Qed.

Lemma strip_single_space (c : Z) : Py.isspace py c = true -> Py.strip py [c] = [].
Proof. intros H. unfold Py.strip, Py.strip_by. simpl. by rewrite H. Qed.

(** *** [split(sep)[-1]]: what follows the last separator *)

Lemma split_on_aux_none (sep : Z) (tok s : ustring) :
  sep ∉ s -> Py.split_on_aux sep tok s = [tok ++ s].
Proof.
  revert tok. induction s as [|c r IH]; intros tok Hs; simpl.
  - by rewrite app_nil_r.
  - apply not_elem_of_cons in Hs as [Hc Hr].
    destruct (Z.eqb_spec c sep); [congruence|].
    by rewrite IH, <- app_assoc.
Qed.

Lemma split_on_aux_nonempty (sep : Z) (tok s : ustring) :
  Py.split_on_aux sep tok s <> [].
Proof.
  revert tok. induction s as [|c r IH]; intros tok; simpl; [done|].
  destruct (c =? sep); [done | apply IH].
Qed.

Lemma split_on_aux_last (sep : Z) (tok before after : ustring) :
  sep ∉ after ->
  Py.last_item (Py.split_on_aux sep tok (before ++ sep :: after)) = after.
Proof.
  intros Ha. revert tok. induction before as [|c r IH]; intros tok; simpl.
  - rewrite Z.eqb_refl, split_on_aux_none by done. reflexivity.
  - destruct (c =? sep); [|apply IH].
    unfold Py.last_item in *. specialize (IH []).
    pose proof (split_on_aux_nonempty sep [] (r ++ sep :: after)) as Hne.
    destruct (Py.split_on_aux sep [] (r ++ sep :: after)); done.
Qed.

(** *** Hexadecimal digits *)

Lemma hex_char_spec (d : Z) :
  0 <= d < 16 ->
  lower_hex (Py.hex_char d) = true /\ Py.hex_digit_value (Py.hex_char d) = Some d.
Proof.
  intros Hd. unfold lower_hex, Py.hex_digit_value, Py.hex_char, Py.between.
  split; zbool; f_equal; lia.
Qed.

Lemma hex_value_app (a : Z) (ds1 ds2 : ustring) :
  Py.hex_value a (ds1 ++ ds2) =
  match Py.hex_value a ds1 with
  | Some v => Py.hex_value v ds2
  | None => None
  end.
Proof.
  revert a. induction ds1 as [|c r IH]; intros a; simpl; [done|].
  destruct (Py.hex_digit_value c); [apply IH | done].
Qed.

Lemma hex_digits_aux_app (fuel : nat) (n : Z) (acc : ustring) :
  Py.hex_digits_aux fuel n acc = Py.hex_digits_aux fuel n [] ++ acc.
Proof.
  revert n acc. induction fuel as [|f IH]; intros n acc; simpl; [done|].
  destruct (n / 16 =? 0); [done|].
  rewrite (IH _ (_ :: acc)), (IH _ [_]), <- app_assoc. done.
Qed.

Lemma hex_digits_aux_spec (f : nat) (n : Z) :
  0 <= n < 16 ^ Z.of_nat (S f) ->
  Py.hex_digits_aux (S f) n [] <> [] /\
  Forall (fun c => lower_hex c = true) (Py.hex_digits_aux (S f) n []) /\
  Py.hex_value 0 (Py.hex_digits_aux (S f) n []) = Some n.
Proof.
  revert n. induction f as [|f IH]; intros n Hn.
  - assert (n / 16 = 0) as Hq by (apply Z.div_small; simpl in Hn; lia).
    assert (n mod 16 = n) as Hr by (apply Z.mod_small; simpl in Hn; lia).
    cbn [Py.hex_digits_aux]. rewrite Hq, Hr. simpl.
    destruct (hex_char_spec n) as [Hl Hv]; [simpl in Hn; lia|].
    rewrite Hv. split; [done|]. split; [by repeat constructor | f_equal; lia].
  - rewrite Nat2Z.inj_succ, Z.pow_succ_r in Hn by lia.
    assert (0 <= n mod 16 < 16) as Hm by (apply Z.mod_pos_bound; lia).
    destruct (hex_char_spec _ Hm) as [Hl Hv].
    change (Py.hex_digits_aux (S (S f)) n []) with
      (if n / 16 =? 0 then [Py.hex_char (n mod 16)]
       else Py.hex_digits_aux (S f) (n / 16) [Py.hex_char (n mod 16)]).
    destruct (Z.eqb_spec (n / 16) 0) as [Hq|Hq].
    + split; [done|]. split; [by repeat constructor|].
      simpl. rewrite Hv. f_equal.
      pose proof (Z.div_mod n 16). lia.
    + destruct (IH (n / 16)) as (Hne & Hall & Hval).
      { split; [apply Z.div_pos; lia | apply Z.div_lt_upper_bound; lia]. }
      rewrite hex_digits_aux_app. split; [|split].
      * intros E. apply app_eq_nil in E as [E _]. done.
      * apply Forall_app. split; [done | by repeat constructor].
      * rewrite hex_value_app, Hval. simpl. rewrite Hv. f_equal.
        pose proof (Z.div_mod n 16). lia.
Qed.

Lemma hex_digits_spec (n : Z) :
  0 <= n ->
  Py.hex_digits n <> [] /\
  Forall (fun c => lower_hex c = true) (Py.hex_digits n) /\
  Py.hex_value 0 (Py.hex_digits n) = Some n.
Proof.
  intros Hn. apply hex_digits_aux_spec. split; [done|].
  rewrite Nat2Z.inj_succ, Z2Nat.id by apply Z.log2_nonneg.
  destruct (Z.eq_dec n 0) as [->|Hne]; [done|].
  pose proof (Z.log2_spec n ltac:(lia)) as [_ Hlt].
  eapply Z.lt_le_trans; [exact Hlt|].
  apply Z.pow_le_mono_l. lia.
Qed.

Lemma ci_hex_digit (c d : Z) :
  (c <? 128) && (d <? 128) && (Py.ascii_toupper c =? Py.ascii_toupper d) = true ->
  lower_hex d = true ->
  Py.is_hex_digit c = true /\ Py.hex_digit_value c = Py.hex_digit_value d.
Proof.
  unfold lower_hex, Py.is_hex_digit, Py.hex_digit_value, Py.ascii_toupper, Py.between.
  intros H1 H2. split; zbool; f_equal; lia.
Qed.

Lemma ci_hex_digits (ds : ustring) :
  Forall (fun c => lower_hex c = true) ds ->
  forall (s : ustring) (a : Z),
    Py.ci_eqb s ds = true ->
    Forall (fun c => Py.is_hex_digit c = true) s /\
    Py.hex_value a s = Py.hex_value a ds /\ (s = [] <-> ds = []).
Proof.
  induction 1 as [|d ds Hd _ IH]; intros [|c s] a E; simpl in E; try done.
  apply andb_true_iff in E as [E1 E2].
  destruct (ci_hex_digit c d E1 Hd) as [Hc Hv].
  destruct (IH s (match Py.hex_digit_value d with Some x => 16 * a + x | None => 0 end) E2)
    as (Hall & Hval & _).
  split; [by constructor|]. split; [|done].
  simpl. rewrite Hv. destruct (Py.hex_digit_value d); [exact Hval | done].
Qed.

(** *** [int(s, 16)] on strings of hex digits *)

Lemma hex_digit_range (c : Z) : Py.is_hex_digit c = true -> 48 <= c <= 102.
Proof. unfold Py.is_hex_digit, Py.hex_digit_value, Py.between. zbool. Qed.

Lemma hex_digit_not_x (c : Z) : Py.is_hex_digit c = true -> c <> 120 /\ c <> 88.
Proof. unfold Py.is_hex_digit, Py.hex_digit_value, Py.between. zbool. Qed.

Lemma encode_decimal_ascii (s : ustring) :
  Forall (fun c => 32 < c < 128) s -> Py.encode_decimal py s = Some s.
Proof.
  induction 1 as [|c r Hc _ IH]; simpl; [done|]. rewrite IH.
  unfold Py.isspace, Py.ascii_isspace, Py.todecimal, Py.between.
  zbool; repeat f_equal; lia.
Qed.

Lemma int16_digits (ds : ustring) (v : Z) :
  ds <> [] -> Forall (fun c => Py.is_hex_digit c = true) ds ->
  Py.hex_value 0 ds = Some v ->
  Py.int16 py ds = Return v.
Proof.
  intros Hne Hall Hv. unfold Py.int16.
  rewrite encode_decimal_ascii, strip_by_keep.
  - destruct ds as [|d r]; [done|].
    pose proof (hex_digit_range d (Forall_inv Hall)) as Hd.
    assert (Py.split_sign (d :: r) = (1, d :: r)) as -> by (simpl; zbool).
    assert (Py.drop_0x (d :: r) = d :: r) as ->.
    { destruct r as [|x [|d' r']]; simpl; try done.
      pose proof (hex_digit_not_x x (Forall_inv (Forall_inv_tail Hall))).
      zbool. }
    rewrite Hv. f_equal. lia.
  - eapply Forall_impl; [exact Hall|]. intros c Hc%hex_digit_range.
    unfold Py.c_isspace, Py.between. zbool.
  - eapply Forall_impl; [exact Hall|]. intros c Hc%hex_digit_range. lia.
Qed.

Lemma int16_0x_digits (x : Z) (ds : ustring) (v : Z) :
  x = 120 \/ x = 88 ->
  ds <> [] -> Forall (fun c => Py.is_hex_digit c = true) ds ->
  Py.hex_value 0 ds = Some v ->
  Py.int16 py (48 :: x :: ds) = Return v.
Proof.
  intros Hx Hne Hall Hv. unfold Py.int16.
  assert (Forall (fun c => 32 < c < 128) (48 :: x :: ds)) as Hr.
  { constructor; [lia|]. constructor; [lia|].
    eapply Forall_impl; [exact Hall|]. intros c Hc%hex_digit_range. lia. }
  rewrite encode_decimal_ascii, strip_by_keep; [|
    eapply Forall_impl; [exact Hr|]; intros c Hc;
    unfold Py.c_isspace, Py.between; zbool | done].
  destruct ds as [|d r]; [done|].
  assert (Py.split_sign (48 :: x :: d :: r) = (1, 48 :: x :: d :: r)) as -> by done.
  assert (Py.drop_0x (48 :: x :: d :: r) = d :: r) as ->.
  { unfold Py.drop_0x. rewrite (Forall_inv Hall). destruct Hx as [->| ->]; done. }
  rewrite Hv. f_equal. lia.
Qed.

End BuiltinFacts.

(** The line reported for an ineligible label is what follows the last
    newline of the stripped log. *)
Lemma last_log_line_after_newline (py : Interpreter) (logs before after : ustring) :
  Py.strip py logs = before ++ 10 :: after -> 10 ∉ after ->
  last_log_line py logs = after.
Proof.
  intros Hs Ha. unfold last_log_line, Py.split_on. rewrite Hs.
  by apply split_on_aux_last.
Qed.

(** ** Facts on the parsers *)

Section ParsingFacts.
Variable py : Interpreter.

Lemma parse_single_char (c : Z) :
  Py.isspace py c = false -> parse_single_cp_input py [c] = Return (Py.ord c).
Proof.
  intros H. unfold parse_single_cp_input. by rewrite strip_single.
Qed.

Lemma parse_single_space (c : Z) :
  Py.isspace py c = true ->
  parse_single_cp_input py [c] = Raise (ValueError (int_error_message py [])).
Proof.
  intros H. unfold parse_single_cp_input. by rewrite strip_single_space.
Qed.

Lemma ascii_not_space (c : Z) : 32 < c < 128 -> Py.isspace py c = false.
Proof. intros H. unfold Py.isspace, Py.ascii_isspace, Py.between. zbool. Qed.

(** A token [U+...] or [u+...] is read as the hex number after the prefix. *)
Lemma parse_U_plus (u : Z) (rest : ustring) (v : Z) :
  u = 85 \/ u = 117 ->
  Forall (fun c => 32 < c < 128) rest ->
  Py.int16 py rest = Return v -> 0 <= v ->
  parse_single_cp_input py (u :: 43 :: rest) =
  if v >? 1114111 then Raise (ValueError out_of_range_message) else Return v.
Proof.
  intros Hu Hrest Hint Hv. unfold parse_single_cp_input.
  rewrite (strip_by_keep (Py.isspace py) : forall s, _ -> Py.strip py s = s).
  - assert ((len (u :: 43 :: rest) =? 1) = false) as ->.
    { unfold len. simpl length. zbool. }
    assert (Py.ustring_eqb (Py.upper py (Py.slice_to 2 (u :: 43 :: rest)))
              (ustr "U+") = true) as ->.
    { destruct Hu as [-> | ->]; reflexivity. }
    change (Py.slice_from 2 (u :: 43 :: rest)) with rest.
    rewrite Hint. simpl. zbool.
  - constructor; [apply ascii_not_space; lia|].
    constructor; [by apply ascii_not_space|].
    eapply Forall_impl; [exact Hrest|]. apply ascii_not_space.
Qed.

Lemma ci_eqb_cons (s : ustring) (d : Z) (t : ustring) :
  Py.ci_eqb s (d :: t) = true ->
  exists c s', s = c :: s' /\ c < 128 /\ Py.ascii_toupper c = Py.ascii_toupper d
               /\ Py.ci_eqb s' t = true.
Proof.
  destruct s as [|c s']; simpl; [done|]. intros H.
  repeat (apply andb_true_iff in H as [H ?]).
  exists c, s'. repeat split; [lia | lia | done].
Qed.

Lemma ci_U_plus (s t : ustring) :
  Py.ci_eqb s (ustr "U+" ++ t) = true ->
  exists u s', s = u :: 43 :: s' /\ (u = 85 \/ u = 117) /\ Py.ci_eqb s' t = true.
Proof.
  change (ustr "U+" ++ t) with (85 :: 43 :: t). intros H.
  apply ci_eqb_cons in H as (u & s1 & -> & Hu & Eu & H).
  apply ci_eqb_cons in H as (p & s' & -> & Hp & Ep & H).
  exists u, s'. unfold Py.ascii_toupper, Py.between in *.
  split; [f_equal; f_equal; zbool | split; [zbool | done]].
Qed.

Lemma parse_U_plus_hex (n : Z) (s : ustring) :
  0 <= n ->
  Py.ci_eqb s (ustr "U+" ++ Py.hex n) = true \/
  Py.ci_eqb s (ustr "U+" ++ Py.hex_digits n) = true ->
  parse_single_cp_input py s =
  if n >? 1114111 then Raise (ValueError out_of_range_message) else Return n.
Proof.
  intros Hn H. destruct (hex_digits_spec n Hn) as (Hne & Hlow & Hval).
  destruct H as [H|H]; apply ci_U_plus in H as (u & s' & -> & Hu & H).
  - unfold Py.hex in H. destruct (Z.ltb_spec n 0); [lia|].
    change (ustr "0x" ++ Py.hex_digits n) with (48 :: 120 :: Py.hex_digits n) in H.
    apply ci_eqb_cons in H as (z & s1 & -> & Hz & Ez & H).
    apply ci_eqb_cons in H as (x & ds & -> & Hx & Ex & H).
    destruct (ci_hex_digits _ Hlow ds 0 H) as (Hall & Hv & Hnil).
    assert (z = 48) as -> by (unfold Py.ascii_toupper, Py.between in Ez; zbool).
    assert (x = 120 \/ x = 88) as Hx'
      by (unfold Py.ascii_toupper, Py.between in Ex; zbool).
    apply parse_U_plus; [done | | | done].
    + constructor; [lia|]. constructor; [lia|].
      eapply Forall_impl; [exact Hall|]. intros c Hc%hex_digit_range. lia.
    + apply int16_0x_digits; [done | tauto | done | congruence].
  - destruct (ci_hex_digits _ Hlow s' 0 H) as (Hall & Hv & Hnil).
    apply parse_U_plus; [done | | | done].
    + eapply Forall_impl; [exact Hall|]. intros c Hc%hex_digit_range. lia.
    + apply int16_digits; [tauto | done | congruence].
Qed.

(** The plain-text branch of [parse_label_input]. *)
Lemma parse_label_input_text (s : ustring)
    (dec : ustring -> result ustring) (as_cp : bool) :
  32 ∉ s -> has_U_plus_ci py s = false -> has_xn_prefix py s = false ->
  parse_label_input py s dec as_cp = Return s.
Proof.
  unfold has_U_plus_ci, has_xn_prefix, parse_label_input.
  intros Hsp -> ->. change (ustr " ") with [32].
  rewrite (contains_char_false _ _ Hsp). simpl.
  rewrite map_ord. by destruct as_cp.
Qed.

Lemma isspace_32 : Py.isspace py 32 = true.
Proof. reflexivity. Qed.

(** [split] sees a whitespace character as it sees a space. *)
Lemma split_aux_whitespace (w : Z) (a b tok : ustring) :
  Py.isspace py w = true ->
  Py.split_aux py tok (a ++ w :: b) = Py.split_aux py tok (a ++ 32 :: b).
Proof.
  intros Hw. revert tok. induction a as [|c a IH]; intros tok.
  - simpl. rewrite Hw. reflexivity.
  - simpl. destruct (Py.isspace py c); [|apply IH].
    destruct tok; rewrite IH; reflexivity.
Qed.

(** When no character beyond ASCII has U or the plus sign as its upper
    case (as in Unicode), the test for "U+" is a test on the characters. *)
Lemma has_U_plus_ci_chars (s : ustring) :
  (forall c, 128 <= c -> ext_toupper py c <> 85 /\ ext_toupper py c <> 43) ->
  has_U_plus_ci py s = contains_U_plus_chars s.
Proof.
  intros Htab. unfold has_U_plus_ci.
  assert (forall c, (85 =? Py.toupper py c) = ((c =? 85) || (c =? 117))) as HU.
  { intros c. pose proof (Htab c). apply eq_true_iff_eq.
    rewrite ?orb_true_iff, !Z.eqb_eq.
    unfold Py.toupper, Py.ascii_toupper, Py.between. zbool. }
  assert (forall c, (43 =? Py.toupper py c) = (c =? 43)) as Hplus.
  { intros c. pose proof (Htab c). apply eq_true_iff_eq.
    rewrite ?orb_true_iff, !Z.eqb_eq.
    unfold Py.toupper, Py.ascii_toupper, Py.between. zbool. }
  change (ustr "U+") with [85; 43].
  induction s as [|u r IH]; [done|].
  cbn [Py.upper map Py.contains contains_U_plus_chars] in *.
  unfold Py.upper in IH. rewrite IH. f_equal.
  destruct r as [|p r']; cbn [map Py.startswith]; rewrite HU.
  - apply andb_false_r.
  - by rewrite Hplus, andb_true_r.
Qed.

(** Likewise for the "xn--" prefix and the lower case. *)
Lemma has_xn_prefix_chars (s : ustring) :
  (forall c, 128 <= c ->
     ext_tolower py c <> 120 /\ ext_tolower py c <> 110 /\ ext_tolower py c <> 45) ->
  has_xn_prefix py s = starts_xn_chars s.
Proof.
  intros Htab. unfold has_xn_prefix.
  assert (forall c, (120 =? Py.tolower py c) = ((c =? 120) || (c =? 88))) as Hx.
  { intros c. pose proof (Htab c). apply eq_true_iff_eq.
    rewrite ?orb_true_iff, !Z.eqb_eq.
    unfold Py.tolower, Py.ascii_tolower, Py.between. zbool. }
  assert (forall c, (110 =? Py.tolower py c) = ((c =? 110) || (c =? 78))) as Hn.
  { intros c. pose proof (Htab c). apply eq_true_iff_eq.
    rewrite ?orb_true_iff, !Z.eqb_eq.
    unfold Py.tolower, Py.ascii_tolower, Py.between. zbool. }
  assert (forall c, (45 =? Py.tolower py c) = (c =? 45)) as Hh.
  { intros c. pose proof (Htab c). apply eq_true_iff_eq.
    rewrite ?orb_true_iff, !Z.eqb_eq.
    unfold Py.tolower, Py.ascii_tolower, Py.between. zbool. }
  change (ustr "xn--") with [120; 110; 45; 45].
  destruct s as [|x [|n [|h1 [|h2 r]]]]; cbn [Py.lower map Py.startswith starts_xn_chars];
    rewrite ?Hx, ?Hn, ?Hh, ?andb_false_r, ?andb_true_r, ?andb_assoc; done.
Qed.

End ParsingFacts.

(** ** Properties of the parsers *)

(** C1: an input with no space, no case-insensitive "U+", no "xn--" prefix
    and more than one character is read literally, one code point per
    character; so "0061" gives [48, 48, 54, 49], not [97], while "U+0061"
    gives [97]. *)
Theorem parse_label_input_literal_text (py : Interpreter)
    (dec : ustring -> result ustring) :
  (forall s : ustring,
      32 ∉ s -> has_U_plus_ci py s = false -> has_xn_prefix py s = false ->
      1 < len s ->
      parse_label_input py s dec true = Return (map Py.ord s)) /\
  parse_label_input py (ustr "0061") dec true = Return [48; 48; 54; 49] /\
  parse_label_input py (ustr "0061") dec true <> Return [97] /\
  parse_label_input py (ustr "U+0061") dec true = Return [97].
Proof.
  split; [|split; [|split]].
  - intros s H1 H2 H3 _. rewrite map_ord. by apply parse_label_input_text.
  - reflexivity.
  - discriminate.
  - reflexivity.
Qed.

Lemma parse_label_input_literal_text_witness :
  parse_label_input ascii_only (ustr "0061") no_decoder true
  = Return (map Py.ord (ustr "0061")).
Proof.
  apply (proj1 (parse_label_input_literal_text ascii_only no_decoder)).
  - apply (bool_decide_unpack _). vm_compute. exact I.
  - reflexivity.
  - reflexivity.
  - reflexivity.
Defined.

(** C6, as the code has it: a single character that is not whitespace is
    read as its own code point, a decimal digit too; "U+" followed by the hex
    digits of n (with or without "0x", in any case) gives n for every n in
    [0, 0x10FFFF]; for 0x110000 the range error is raised.  A single
    whitespace character is stripped away first and is not read as itself. *)
Theorem parse_single_cp_input_spec (py : Interpreter) :
  (forall c : Z,
      Py.isspace py c = false -> parse_single_cp_input py [c] = Return (Py.ord c)) /\
  (forall c : Z,
      48 <= c <= 57 -> parse_single_cp_input py [c] = Return (Py.ord c)) /\
  (forall (n : Z) (s : ustring),
      0 <= n <= 1114111 ->
      Py.ci_eqb s (ustr "U+" ++ Py.hex n) = true \/
      Py.ci_eqb s (ustr "U+" ++ Py.hex_digits n) = true ->
      parse_single_cp_input py s = Return n) /\
  (forall s : ustring,
      Py.ci_eqb s (ustr "U+" ++ Py.hex 1114112) = true \/
      Py.ci_eqb s (ustr "U+" ++ Py.hex_digits 1114112) = true ->
      parse_single_cp_input py s = Raise (ValueError out_of_range_message)).
Proof.
  split; [|split; [|split]].
  - apply parse_single_char.
  - intros c Hc. apply parse_single_char, ascii_not_space. lia.
  - intros n s Hn Hs. rewrite (parse_U_plus_hex py n s); [|lia|done].
    destruct (Z.gtb_spec n 1114111); [lia | done].
  - intros s Hs. by rewrite (parse_U_plus_hex py 1114112 s).
Qed.

Lemma parse_single_cp_input_spec_witness :
  parse_single_cp_input ascii_only (ustr "z") = Return 122 /\
  parse_single_cp_input ascii_only (ustr "1") = Return 49 /\
  parse_single_cp_input ascii_only (ustr "u+0X10FfFf") = Return 1114111 /\
  parse_single_cp_input ascii_only (ustr "U+10ffff") = Return 1114111 /\
  parse_single_cp_input ascii_only (ustr "u+110000")
  = Raise (ValueError out_of_range_message).
Proof.
  destruct (parse_single_cp_input_spec ascii_only) as (H1 & H2 & H3 & H4).
  split; [apply (H1 122); reflexivity|].
  split; [apply (H2 49); lia|].
  split; [apply (H3 1114111); [lia | left; vm_compute; reflexivity]|].
  split; [apply (H3 1114111); [lia | right; vm_compute; reflexivity]|].
  apply H4. right. vm_compute. reflexivity.
Defined.

(** C6 as stated fails at the single character " ": it is stripped, and the
    empty string is refused by int(). *)
Lemma parse_single_cp_input_space_fails :
  Py.isspace ascii_only 32 = true /\
  parse_single_cp_input ascii_only [32] <> Return (Py.ord 32) /\
  parse_single_cp_input ascii_only [32]
  = Raise (ValueError (int_error_message ascii_only [])).
Proof. split; [reflexivity|]. split; [discriminate | reflexivity]. Qed.

(** C7, as the code has it: for a string that does not start with "xn--"
    (in any case) and that parse_codepoint_input refuses, parse_label_input
    raises the error on spaces when the string contains a space, and the
    error of parse_codepoint_input itself when it contains no space but a
    case-insensitive "U+". *)
Theorem parse_label_input_parse_failure (py : Interpreter) (s : ustring)
    (dec : ustring -> result ustring) (as_cp : bool) (e : exn) :
  has_xn_prefix py s = false ->
  parse_codepoint_input py s = Raise e ->
  (32 ∈ s ->
   parse_label_input py s dec as_cp = Raise (ValueError (spaces_message s))) /\
  (32 ∉ s -> has_U_plus_ci py s = true ->
   parse_label_input py s dec as_cp = Raise e).
Proof.
  unfold has_xn_prefix, has_U_plus_ci, parse_label_input.
  intros -> He. rewrite He. change (ustr " ") with [32]. split.
  - intros Hsp%contains_char. by rewrite Hsp.
  - intros Hsp%contains_char_false ->. by rewrite Hsp.
Qed.

Lemma parse_label_input_parse_failure_witness :
  parse_label_input ascii_only (ustr "a zz") no_decoder true
  = Raise (ValueError (spaces_message (ustr "a zz"))) /\
  parse_label_input ascii_only (ustr "U+zz") no_decoder true
  = Raise (ValueError (int_error_message ascii_only (ustr "zz"))).
Proof.
  split.
  - apply (parse_label_input_parse_failure ascii_only (ustr "a zz") no_decoder true
             (ValueError (int_error_message ascii_only (ustr "zz"))));
      [reflexivity | reflexivity |].
    apply (bool_decide_unpack _). vm_compute. exact I.
  - apply (parse_label_input_parse_failure ascii_only (ustr "U+zz") no_decoder true
             (ValueError (int_error_message ascii_only (ustr "zz"))));
      [reflexivity | reflexivity | | reflexivity].
    apply (bool_decide_unpack _). vm_compute. exact I.
Defined.

(** C7 as stated fails at "xn-- zz": the string contains a space and is not
    a code-point sequence, but it starts with "xn--", so it goes to the
    decoder and the decoder's error comes out. *)
Lemma parse_label_input_xn_with_space :
  32 ∈ ustr "xn-- zz" /\
  parse_codepoint_input ascii_only (ustr "xn-- zz")
  = Raise (ValueError (int_error_message ascii_only (ustr "xn--"))) /\
  parse_label_input ascii_only (ustr "xn-- zz") no_decoder true
  = no_decoder (ustr "xn-- zz") /\
  parse_label_input ascii_only (ustr "xn-- zz") no_decoder true
  <> Raise (ValueError (spaces_message (ustr "xn-- zz"))).
Proof.
  split; [apply (bool_decide_unpack _); vm_compute; exact I|].
  split; [reflexivity|]. split; [reflexivity | discriminate].
Qed.

(** C10: only the space character (32) sends an input to the code-point
    parser.  An input with a tab, or another whitespace character that is not
    the space, and with no space, no case-insensitive "U+" and no "xn--"
    prefix is read literally, the whitespace character included; yet
    parse_codepoint_input splits at that character as it does at a space. *)
Theorem parse_label_input_tab_literal (py : Interpreter)
    (dec : ustring -> result ustring) (w : Z) (s : ustring) :
  Py.isspace py w = true -> w <> 32 -> w ∈ s ->
  32 ∉ s -> has_U_plus_ci py s = false -> has_xn_prefix py s = false ->
  1 < len s ->
  parse_label_input py s dec true = Return (map Py.ord s) /\
  w ∈ map Py.ord s /\
  (forall a b : ustring,
      parse_codepoint_input py (a ++ w :: b) = parse_codepoint_input py (a ++ 32 :: b)).
Proof.
  intros Hw _ Hin Hsp HU Hxn _. rewrite map_ord. split; [|split].
  - by apply parse_label_input_text.
  - done.
  - intros a b. unfold parse_codepoint_input, Py.split.
    by rewrite (split_aux_whitespace py w a b []).
Qed.

Lemma parse_label_input_tab_literal_witness :
  parse_label_input ascii_only (ustr "0061" ++ [9] ++ ustr "0062") no_decoder true
  = Return (map Py.ord (ustr "0061" ++ [9] ++ ustr "0062")) /\
  parse_codepoint_input ascii_only (ustr "0061" ++ [9] ++ ustr "0062")
  = Return [97; 98].
Proof.
  destruct (parse_label_input_tab_literal ascii_only no_decoder 9
              (ustr "0061" ++ [9] ++ ustr "0062")) as (H1 & _ & H3).
  - reflexivity.
  - lia.
  - apply (bool_decide_unpack _). vm_compute. exact I.
  - apply (bool_decide_unpack _). vm_compute. exact I.
  - reflexivity.
  - reflexivity.
  - reflexivity.
  - split; [exact H1|].
    etrans; [exact (H3 (ustr "0061") (ustr "0062")) | reflexivity].
Defined.

(** C8: of the lines "# comment", "abc", "U+0061 0062" and a blank one,
    read without keeping comments, exactly two labels come out, in order:
    "abc" and the string of the code points 97, 98. *)
Theorem read_labels_example (py : Interpreter) (unidb : UnicodeDatabase)
    (do_raise : bool) :
  read_labels py
    [ustr "# comment" ++ [10]; ustr "abc" ++ [10];
     ustr "U+0061 0062" ++ [10]; ustr "  " ++ [10]]
    unidb do_raise false
  = GYield (ustr "abc") (GYield [97; 98] GStop).
Proof. reflexivity. Qed.

(** ** Facts on read_labels *)

Lemma gen_items_prepend {A} (items : list A) (g : gen A) :
  gen_items (prepend items g) = items ++ gen_items g.
Proof. induction items as [|a r IH]; simpl; [done | by rewrite IH]. Qed.

Lemma gen_raises_prepend {A} (items : list A) (g : gen A) :
  gen_raises (prepend items g) = gen_raises g.
Proof. induction items as [|a r IH]; simpl; done. Qed.

Section ReadLabelsFacts.
Variable py : Interpreter.
Variable unidb : UnicodeDatabase.

Lemma read_labels_cons_lenient (kc : bool) (x : ustring) (input : list ustring) :
  read_labels py (x :: input) unidb false kc
  = prepend (lenient_items py unidb kc x) (read_labels py input unidb false kc).
Proof.
  unfold lenient_items, label_of_line. cbn [read_labels].
  generalize (ustr "#") (ustr ": "). intros h sep.
  destruct (Py.contains h (Py.strip py x)); simpl.
  - destruct (Py.find h (Py.strip py x) =? 0); simpl.
    + by destruct kc.
    + destruct (len _ =? 0); [done|].
      by destruct (parse_label_input _ _ _ _).
  - destruct (len _ =? 0); [done|].
    by destruct (parse_label_input _ _ _ _).
Qed.

Lemma read_labels_lenient_items (kc : bool) (input : list ustring) :
  gen_items (read_labels py input unidb false kc)
  = concat (map (lenient_items py unidb kc) input)
  /\ gen_raises (read_labels py input unidb false kc) = None.
Proof.
  induction input as [|x input [IH1 IH2]]; [done|].
  rewrite read_labels_cons_lenient, gen_items_prepend, gen_raises_prepend.
  simpl. by rewrite IH1.
Qed.

Lemma lenient_items_failure (kc : bool) (x label : ustring) (ex : exn) :
  label_of_line py x = Some label ->
  parse_label_input py label (idna_decode_label unidb) false = Raise ex ->
  lenient_items py unidb kc x = [label ++ ustr ": " ++ Py.unicode_of_exn py ex].
Proof.
  unfold lenient_items. intros Hl Hp. rewrite Hl, Hp.
  unfold label_of_line in Hl.
  destruct (Py.contains _ _); simpl; [|done].
  destruct (Py.find _ _ =? 0); simpl; [|done]. done.
Qed.

End ReadLabelsFacts.

(** ** Facts on read_set_labels *)

Section SetLabelsFacts.
Variable py : Interpreter.
Variable lgr : LGR.

Abbreviation loop := (set_labels_loop py lgr).
Abbreviation invalid_log label :=
  (LogError (not_valid_message label (diagnostic py lgr label))).

Lemma loop_yield (v d : bool) (label : ustring) (rest : gen ustring)
    (acc : gset ustring) :
  loop v d (GYield label rest) acc =
  if v then
    if eligible lgr label then
      with_trace [TestEligible (map Py.ord label)] (loop v d rest (acc ∪ {[label]}))
    else if d then
      ([TestEligible (map Py.ord label); invalid_log label],
       Raise (LGRInvalidLabelException label (diagnostic py lgr label)))
    else
      with_trace [TestEligible (map Py.ord label); invalid_log label]
        (loop v d rest acc)
  else loop v d rest (acc ∪ {[label]}).
Proof.
  cbn [set_labels_loop]. unfold eligible, diagnostic, with_trace, tbind, emit.
  destruct v; [|done].
  destruct (test_label_eligible lgr (map Py.ord label)) as [[] logs]; simpl.
  - by destruct (loop true d rest _) as [t r].
  - destruct d; [done|]. by destruct (loop true false rest acc) as [t r].
Qed.

Lemma collision_checks_app (t1 t2 : list event) :
  collision_checks (t1 ++ t2) = collision_checks t1 ++ collision_checks t2.
Proof. apply flat_map_app. Qed.

(** The loop never calls the collision check. *)
Lemma loop_no_collision_check (v d : bool) (g : gen ustring) (acc : gset ustring) :
  collision_checks (loop v d g acc).1 = [].
Proof.
  revert acc. induction g as [|label rest IH|e]; intros acc; [done| |done].
  rewrite loop_yield. destruct v; [|apply IH].
  destruct (eligible lgr label); [apply IH|].
  destruct d; [done | apply IH].
Qed.

(** When the loop returns, nothing was raised, and the set holds what it
    held plus the labels read (the eligible ones, under validation). *)
Lemma loop_return (v d : bool) (g : gen ustring) (acc acc' : gset ustring)
    (tr : list event) :
  loop v d g acc = (tr, Return acc') ->
  gen_raises g = None /\
  (forall l, l ∈ acc' <-> l ∈ acc \/ (l ∈ gen_items g /\ (v = true -> eligible lgr l = true))) /\
  (v = true -> d = true -> Forall (fun l => eligible lgr l = true) (gen_items g)) /\
  (v = true -> forall l, l ∈ gen_items g ->
     TestEligible (map Py.ord l) ∈ tr /\
     (eligible lgr l = false -> invalid_log l ∈ tr)).
Proof.
  revert acc tr. induction g as [|label rest IH|e]; intros acc tr H.
  - injection H as <- <-. simpl. split; [done|]. split; [|split].
    + intros l. rewrite elem_of_nil. tauto.
    + constructor.
    + intros _ l Hl. by apply elem_of_nil in Hl.
  - rewrite loop_yield in H. simpl.
    destruct v.
    + destruct (eligible lgr label) eqn:El.
      * destruct (loop true d rest (acc ∪ {[label]})) as [t r] eqn:E.
        injection H as <- ->.
        destruct (IH _ _ E) as (H1 & H2 & H3 & H4).
        split; [done|]. split; [|split].
        -- intros l. rewrite H2, elem_of_union, elem_of_singleton, elem_of_cons.
           split; [|naive_solver]. intros [[?| ->]|?]; naive_solver.
        -- intros _ Hd. constructor; [done | by apply H3].
        -- intros _ l [-> | Hl]%elem_of_cons.
           ++ split; [set_solver | congruence].
           ++ destruct (H4 eq_refl l Hl). split; [set_solver|].
              intros ?. apply elem_of_cons. right. tauto.
      * destruct d; [done|].
        destruct (loop true false rest acc) as [t r] eqn:E.
        injection H as <- ->.
        destruct (IH _ _ E) as (H1 & H2 & H3 & H4).
        split; [done|]. split; [|split].
        -- intros l. rewrite H2, elem_of_cons.
           split; [naive_solver|]. intros [?|[[-> | ?] ?]]; [tauto| |tauto].
           assert (eligible lgr label = true) by tauto. congruence.
        -- done.
        -- intros _ l [-> | Hl]%elem_of_cons.
           ++ split; [set_solver|]. intros _. set_solver.
           ++ destruct (H4 eq_refl l Hl). split; [set_solver|].
              intros ?. do 2 (apply elem_of_cons; right). tauto.
    + destruct (IH _ _ H) as (H1 & H2 & H3 & H4).
      split; [done|]. split; [|split; done].
      intros l. rewrite H2, elem_of_union, elem_of_singleton, elem_of_cons.
      split; [|naive_solver]. intros [[?| ->]|?]; naive_solver.
  - discriminate.
Qed.

(** The loop runs to its end when nothing is raised by the reader and,
    under validation with raising, every label read is eligible. *)
Lemma loop_completes (v d : bool) (g : gen ustring) (acc : gset ustring) :
  gen_raises g = None ->
  (v = true -> d = true -> Forall (fun l => eligible lgr l = true) (gen_items g)) ->
  exists tr acc', loop v d g acc = (tr, Return acc').
Proof.
  revert acc. induction g as [|label rest IH|e]; intros acc Hr Hall.
  - by exists [], acc.
  - rewrite loop_yield. simpl in *. destruct v.
    + destruct (eligible lgr label) eqn:El.
      * destruct (IH (acc ∪ {[label]}) Hr) as (tr & acc' & E).
        { intros Hv Hd. exact (Forall_inv_tail (Hall Hv Hd)). }
        rewrite E. by eexists _, _.
      * destruct d.
        { pose proof (Forall_inv (Hall eq_refl eq_refl)). congruence. }
        destruct (IH acc Hr) as (tr & acc' & E); [done|].
        rewrite E. by eexists _, _.
    + apply IH; [done | discriminate].
  - discriminate.
Qed.

(** In raising mode the first ineligible label read ends the loop. *)
Lemma loop_first_invalid (g : gen ustring) (acc : gset ustring)
    (good : list ustring) (label : ustring) (rest : list ustring) :
  gen_items g = good ++ label :: rest ->
  Forall (fun l => eligible lgr l = true) good ->
  eligible lgr label = false ->
  exists tr,
    loop true true g acc
    = (tr ++ [TestEligible (map Py.ord label); invalid_log label],
       Raise (LGRInvalidLabelException label (diagnostic py lgr label))).
Proof.
  revert acc good. induction g as [|a g' IH|e]; intros acc good Hg Hgood Hl.
  - by destruct good.
  - rewrite loop_yield. destruct good as [|b good]; simpl in Hg.
    + injection Hg as -> _. rewrite Hl. by exists [].
    + injection Hg as -> Hg. rewrite (Forall_inv Hgood).
      destruct (IH (acc ∪ {[b]}) good Hg (Forall_inv_tail Hgood) Hl) as (tr & E).
      rewrite E. by exists (TestEligible (map Py.ord b) :: tr).
  - by destruct good.
Qed.

Lemma read_set_labels_eq (is_collision : LGR -> gset ustring -> bool)
    (labels : list ustring) (v d : bool) :
  read_set_labels py is_collision lgr labels v d =
  match loop v d (read_labels py labels (unicode_database lgr) d false) ∅ with
  | (tr, Raise e) => (tr, Raise e)
  | (tr, Return acc) =>
      if v then
        if is_collision lgr acc then
          (tr ++ [IsCollision acc; LogError collision_message],
           if d then Raise LGRLabelCollisionException else Return acc)
        else (tr ++ [IsCollision acc], Return acc)
      else (tr, Return acc)
  end.
Proof.
  unfold read_set_labels, tbind, emit, tret, traise.
  destruct (loop v d _ ∅) as [tr [acc|e]]; [|done].
  destruct v; [|by rewrite app_nil_r].
  destruct (is_collision lgr acc); [by destruct d | done].
Qed.

End SetLabelsFacts.

(** ** Properties of read_set_labels *)

(** C2, as the code has it: with validation, every label of a returned set
    is eligible under the merged ruleset, in both modes; in raising mode a
    returned set has no collision; in non-raising mode a set with a collision
    is still returned, with the collision logged. *)
Theorem read_set_labels_validated (py : Interpreter)
    (is_collision : LGR -> gset ustring -> bool) (merged_lgr : LGR)
    (labels : list ustring) (do_raise : bool)
    (tr : list event) (set_labels : gset ustring) :
  read_set_labels py is_collision merged_lgr labels true do_raise
  = (tr, Return set_labels) ->
  (forall label, label ∈ set_labels -> eligible merged_lgr label = true) /\
  (do_raise = true -> is_collision merged_lgr set_labels = false) /\
  (is_collision merged_lgr set_labels = true ->
   do_raise = false /\ LogError collision_message ∈ tr).
Proof.
  rewrite read_set_labels_eq.
  destruct (set_labels_loop _ _ _ _ _ _) as [t [acc|e]] eqn:E; [|done].
  apply loop_return in E as (_ & Hmem & _ & _).
  destruct (is_collision merged_lgr acc) eqn:Hc.
  - destruct do_raise; [done|]. intros [= <- <-].
    split; [|split]; [| done |].
    + intros l [Hl|[_ Hl]]%Hmem; [by apply elem_of_empty in Hl | by apply Hl].
    + intros _. split; [done|]. set_solver.
  - intros [= <- <-]. split; [|split]; [| done | congruence].
    intros l [Hl|[_ Hl]]%Hmem; [by apply elem_of_empty in Hl | by apply Hl].
Qed.

Lemma read_set_labels_validated_witness :
  exists tr set_labels,
    read_set_labels ascii_only ab_cd_collide lgr_az
      [ustr "ab"; ustr "A"; ustr "xy"] true false = (tr, Return set_labels) /\
    (forall label, label ∈ set_labels -> eligible lgr_az label = true) /\
    ab_cd_collide lgr_az set_labels = false.
Proof.
  eexists _, _. split; [reflexivity|].
  split.
  - apply (read_set_labels_validated ascii_only ab_cd_collide lgr_az
             [ustr "ab"; ustr "A"; ustr "xy"] false _ _ eq_refl).
  - vm_compute. reflexivity.
Defined.

(** C2 as stated fails in non-raising mode: the labels "ab" and "cd" are
    both eligible, the checker reports a collision, and the set with both
    labels is returned all the same. *)
Lemma read_set_labels_returns_collision :
  exists tr set_labels,
    read_set_labels ascii_only ab_cd_collide lgr_az
      [ustr "ab"; ustr "cd"] true false = (tr, Return set_labels) /\
    ustr "ab" ∈ set_labels /\ ustr "cd" ∈ set_labels /\
    ab_cd_collide lgr_az set_labels = true.
Proof.
  eexists _, _. split; [reflexivity|].
  split; [set_solver|]. split; [set_solver|]. vm_compute. reflexivity.
Qed.

(** What follows the last newline of a string, or the whole string when it
    has no newline. *)
Lemma last_line_exists (s : ustring) :
  exists line, (10 ∉ line) /\ (s = line \/ exists before, s = before ++ 10 :: line).
Proof.
  induction s as [|c s (line & Hline & [Hs | (before & Hs)])].
  - exists []. split; [apply not_elem_of_nil | by left].
  - destruct (Z.eq_dec c 10) as [-> | Hc].
    + exists line. split; [done|]. right. exists []. by rewrite Hs.
    + exists (c :: line). split; [|left; by rewrite Hs].
      apply not_elem_of_cons. split; [congruence | done].
  - exists line. split; [done|]. right. exists (c :: before). by rewrite Hs.
Qed.

Lemma last_log_line_is (py : Interpreter) (logs line : ustring) :
  10 ∉ line ->
  Py.strip py logs = line \/ (exists before, Py.strip py logs = before ++ 10 :: line) ->
  last_log_line py logs = line.
Proof.
  intros Hline [Hs | (before & Hs)].
  - unfold last_log_line, Py.split_on. rewrite Hs, split_on_aux_none by done.
    reflexivity.
  - by apply (last_log_line_after_newline py logs before line).
Qed.

Lemma ineligible_label_outcome (py : Interpreter)
    (is_collision : LGR -> gset ustring -> bool) (merged_lgr : LGR)
    (labels : list ustring) :
  (forall label,
      label ∈ gen_items (read_labels py labels (unicode_database merged_lgr) false false) ->
      eligible merged_lgr label = false ->
      exists tr set_labels,
        read_set_labels py is_collision merged_lgr labels true false
        = (tr, Return set_labels) /\
        (label ∉ set_labels) /\
        LogError (not_valid_message label (diagnostic py merged_lgr label)) ∈ tr) /\
  (forall good label rest,
      gen_items (read_labels py labels (unicode_database merged_lgr) true false)
      = good ++ label :: rest ->
      Forall (fun l => eligible merged_lgr l = true) good ->
      eligible merged_lgr label = false ->
      exists tr,
        read_set_labels py is_collision merged_lgr labels true true
        = (tr ++ [LogError (not_valid_message label (diagnostic py merged_lgr label))],
           Raise (LGRInvalidLabelException label (diagnostic py merged_lgr label)))).
Proof.
  split.
  - intros label Hin Hel. rewrite read_set_labels_eq.
    destruct (read_labels_lenient_items py (unicode_database merged_lgr) false labels)
      as [_ Hnone].
    destruct (loop_completes py merged_lgr true false _ ∅ Hnone) as (tr & acc & E);
      [done|].
    rewrite E. apply loop_return in E as (_ & Hmem & _ & Htr).
    destruct (Htr eq_refl label Hin) as [_ Hlog].
    assert (label ∉ acc) as Hnot.
    { intros [Hl|[_ Hl]]%Hmem; [by apply elem_of_empty in Hl|].
      specialize (Hl eq_refl). congruence. }
    destruct (is_collision merged_lgr acc); eexists _, _;
      (split; [reflexivity|]); (split; [done|]);
      apply elem_of_app; left; by apply Hlog.
  - intros good label rest Hg Hgood Hel. rewrite read_set_labels_eq.
    destruct (loop_first_invalid py merged_lgr _ ∅ good label rest Hg Hgood Hel)
      as (tr & E).
    rewrite E. exists (tr ++ [TestEligible (map Py.ord label)]).
    by rewrite <- app_assoc.
Qed.


(** C3: with validation, a label whose eligibility check fails is not in
    the returned set, and the error
    "Label <label> from LGR set labels is not valid: <line>" is logged for
    it, where <line> is the last line of the check's log: what follows the
    last newline of the stripped log, or the whole stripped log when it has
    no newline.  In raising mode the first such label read ends the operation
    with LGRInvalidLabelException carrying the label and that line, the error
    being the last entry of the log. *)
Theorem read_set_labels_ineligible (py : Interpreter)
    (is_collision : LGR -> gset ustring -> bool) (merged_lgr : LGR)
    (labels : list ustring) :
  (forall label logs line,
      label ∈ gen_items (read_labels py labels (unicode_database merged_lgr) false false) ->
      test_label_eligible merged_lgr (map Py.ord label) = (false, logs) ->
      10 ∉ line ->
      Py.strip py logs = line \/
      (exists before, Py.strip py logs = before ++ 10 :: line) ->
      exists tr set_labels,
        read_set_labels py is_collision merged_lgr labels true false
        = (tr, Return set_labels) /\
        (label ∉ set_labels) /\
        LogError (ustr "Label " ++ label ++
                  ustr " from LGR set labels is not valid: " ++ line) ∈ tr) /\
  (forall good label rest logs line,
      gen_items (read_labels py labels (unicode_database merged_lgr) true false)
      = good ++ label :: rest ->
      Forall (fun l => (test_label_eligible merged_lgr (map Py.ord l)).1 = true) good ->
      test_label_eligible merged_lgr (map Py.ord label) = (false, logs) ->
      10 ∉ line ->
      Py.strip py logs = line \/
      (exists before, Py.strip py logs = before ++ 10 :: line) ->
      exists tr,
        read_set_labels py is_collision merged_lgr labels true true
        = (tr ++ [LogError (ustr "Label " ++ label ++
                            ustr " from LGR set labels is not valid: " ++ line)],
           Raise (LGRInvalidLabelException label line))).
Proof.
  destruct (ineligible_label_outcome py is_collision merged_lgr labels) as [H1 H2].
  assert (forall label logs line,
            test_label_eligible merged_lgr (map Py.ord label) = (false, logs) ->
            10 ∉ line ->
            Py.strip py logs = line \/
            (exists before, Py.strip py logs = before ++ 10 :: line) ->
            eligible merged_lgr label = false /\
            diagnostic py merged_lgr label = line) as Hline.
  { intros label logs line Htest Hl Hs. unfold eligible, diagnostic.
    rewrite Htest. split; [done|]. by apply last_log_line_is. }
  split.
  - intros label logs line Hin Htest Hl Hs.
    destruct (Hline label logs line Htest Hl Hs) as [Hel Hdiag].
    destruct (H1 label Hin Hel) as (tr & acc & E & Hnot & Hlog).
    rewrite Hdiag in Hlog. by exists tr, acc.
  - intros good label rest logs line Hg Hgood Htest Hl Hs.
    destruct (Hline label logs line Htest Hl Hs) as [Hel Hdiag].
    destruct (H2 good label rest Hg Hgood Hel) as (tr & E).
    rewrite Hdiag in E. by exists tr.
Qed.

Lemma read_set_labels_ineligible_witness :
  (exists tr set_labels,
      read_set_labels ascii_only ab_cd_collide lgr_az
        [ustr "ab"; ustr "A"; ustr "xy"] true false = (tr, Return set_labels) /\
      (ustr "A" ∉ set_labels) /\
      LogError (ustr "Label A from LGR set labels is not valid: not in repertoire")
      ∈ tr) /\
  (exists tr,
      read_set_labels ascii_only ab_cd_collide lgr_az
        [ustr "ab"; ustr "A"; ustr "xy"] true true
      = (tr ++ [LogError
                  (ustr "Label A from LGR set labels is not valid: not in repertoire")],
         Raise (LGRInvalidLabelException (ustr "A") (ustr "not in repertoire")))).
Proof.
  destruct (read_set_labels_ineligible ascii_only ab_cd_collide lgr_az
              [ustr "ab"; ustr "A"; ustr "xy"]) as [H1 H2].
  assert (10 ∉ ustr "not in repertoire") as Hline
    by (apply (bool_decide_unpack _); vm_compute; exact I).
  split.
  - apply (H1 (ustr "A")
             (ustr "checking label" ++ [10] ++ ustr "not in repertoire" ++ [10])
             (ustr "not in repertoire")).
    + apply (bool_decide_unpack _). vm_compute. exact I.
    + reflexivity.
    + exact Hline.
    + right. exists (ustr "checking label"). reflexivity.
  - apply (H2 [ustr "ab"] (ustr "A") [ustr "xy"]
             (ustr "checking label" ++ [10] ++ ustr "not in repertoire" ++ [10])
             (ustr "not in repertoire")).
    + reflexivity.
    + constructor; [reflexivity | constructor].
    + reflexivity.
    + exact Hline.
    + right. exists (ustr "checking label"). reflexivity.
Defined.

(** C4, as the code has it: with validation, when the loop over the labels
    runs to its end (always in non-raising mode; in raising mode when no line
    fails to parse and every label read is eligible) the collision check is
    called exactly once, after the loop, on the set of all eligible labels
    read; a collision is logged ("Input label file contains collision(s)"),
    and raised as LGRLabelCollisionException in raising mode only.  When the
    loop is left by an exception in raising mode the check is not called at
    all.  It is never called more than once. *)
Theorem read_set_labels_collision_check (py : Interpreter)
    (is_collision : LGR -> gset ustring -> bool) (merged_lgr : LGR)
    (labels : list ustring) (do_raise : bool) :
  let g := read_labels py labels (unicode_database merged_lgr) do_raise false in
  let out := read_set_labels py is_collision merged_lgr labels true do_raise in
  (do_raise = false \/
   (gen_raises g = None /\ Forall (fun l => eligible merged_lgr l = true) (gen_items g)) ->
   exists tr0 set_labels,
     (forall l, l ∈ set_labels <-> l ∈ gen_items g /\ eligible merged_lgr l = true) /\
     collision_checks tr0 = [] /\
     out.1 = tr0 ++ IsCollision set_labels ::
               (if is_collision merged_lgr set_labels
                then [LogError (ustr "Input label file contains collision(s)")]
                else []) /\
     collision_checks out.1 = [set_labels] /\
     out.2 = if is_collision merged_lgr set_labels && do_raise
             then Raise LGRLabelCollisionException else Return set_labels) /\
  (do_raise = true ->
   gen_raises g <> None \/
   ~ Forall (fun l => eligible merged_lgr l = true) (gen_items g) ->
   collision_checks out.1 = [] /\ exists e, out.2 = Raise e) /\
  (length (collision_checks out.1) <= 1)%nat /\
  (collision_checks out.1 = [] -> exists e, out.2 = Raise e).
Proof.
  intros g out. subst out. rewrite read_set_labels_eq. fold g.
  pose proof (loop_no_collision_check py merged_lgr true do_raise g ∅) as Hno.
  split; [|split; [|split]].
  - intros Hend.
    assert (gen_raises g = None /\
            (do_raise = true -> Forall (fun l => eligible merged_lgr l = true) (gen_items g)))
      as [Hnone Hall].
    { destruct Hend as [-> | [? ?]]; [|done].
      split; [|done]. apply read_labels_lenient_items. }
    destruct (loop_completes py merged_lgr true do_raise g ∅ Hnone) as (tr & acc & E);
      [tauto|].
    rewrite E in *. simpl in Hno.
    apply loop_return in E as (_ & Hmem & _ & _).
    exists tr, acc. split; [|split; [done|]].
    { intros l. rewrite Hmem, elem_of_empty. tauto. }
    destruct (is_collision merged_lgr acc); simpl;
      rewrite collision_checks_app, Hno; by destruct do_raise.
  - intros -> Hleft.
    destruct (set_labels_loop _ _ _ _ _ _) as [tr [acc|e]] eqn:E; simpl in *.
    + apply loop_return in E as (Hnone & _ & Hall & _).
      destruct Hleft as [Hleft|Hleft]; [done | by specialize (Hall eq_refl eq_refl)].
    + split; [exact Hno | by exists e].
  - destruct (set_labels_loop _ _ _ _ _ _) as [tr [acc|e]]; simpl in *.
    + destruct (is_collision merged_lgr acc); simpl;
        rewrite collision_checks_app, Hno; simpl; lia.
    + rewrite Hno. simpl. lia.
  - destruct (set_labels_loop _ _ _ _ _ _) as [tr [acc|e]]; simpl in *.
    + destruct (is_collision merged_lgr acc); simpl;
        rewrite collision_checks_app, Hno; simpl; discriminate.
    + intros _. by exists e.
Qed.

Lemma read_set_labels_collision_check_witness :
  exists tr0 set_labels,
    (read_set_labels ascii_only ab_cd_collide lgr_az
       [ustr "ab"; ustr "A"; ustr "cd"] true false).1
    = tr0 ++ [IsCollision set_labels;
              LogError (ustr "Input label file contains collision(s)")] /\
    collision_checks tr0 = [] /\
    (read_set_labels ascii_only ab_cd_collide lgr_az
       [ustr "ab"; ustr "A"; ustr "cd"] true false).2 = Return set_labels.
Proof.
  destruct (read_set_labels_collision_check ascii_only ab_cd_collide lgr_az
              [ustr "ab"; ustr "A"; ustr "cd"] false) as [H _].
  destruct (H (or_introl eq_refl)) as (tr0 & acc & Hmem & Hno & Htr & _ & Hres).
  assert (ab_cd_collide lgr_az acc = true) as Hc.
  { unfold ab_cd_collide. apply andb_true_iff.
    split; apply bool_decide_eq_true_2; apply Hmem;
      (split; [apply (bool_decide_unpack _); vm_compute; exact I | reflexivity]). }
  rewrite Hc in Htr, Hres. by exists tr0, acc.
Defined.

(** C4 as stated fails in raising mode: the label "A" is not eligible, the
    operation ends with LGRInvalidLabelException, and the collision check is
    not called once but never. *)
Lemma read_set_labels_check_not_reached :
  collision_checks
    (read_set_labels ascii_only ab_cd_collide lgr_az
       [ustr "ab"; ustr "A"; ustr "cd"] true true).1 = [] /\
  length (collision_checks
    (read_set_labels ascii_only ab_cd_collide lgr_az
       [ustr "ab"; ustr "A"; ustr "cd"] true true).1) <> 1%nat /\
  (read_set_labels ascii_only ab_cd_collide lgr_az
     [ustr "ab"; ustr "A"; ustr "cd"] true true).2
  = Raise (LGRInvalidLabelException (ustr "A") (ustr "not in repertoire")).
Proof. split; [reflexivity|]. split; [discriminate | reflexivity]. Qed.

(** C9: in non-raising mode a line whose label does not parse makes
    read_labels yield the string "<label>: <error message>" in its place, and
    read_set_labels takes that string as a label like any other: under
    validation it is tested for eligibility and kept exactly when eligible;
    without validation it is in the returned set as it is. *)
Theorem placeholder_is_ordinary_label (py : Interpreter)
    (is_collision : LGR -> gset ustring -> bool) (merged_lgr : LGR)
    (before : list ustring) (x : ustring) (after : list ustring)
    (label : ustring) (ex : exn) :
  label_of_line py x = Some label ->
  parse_label_input py label (idna_decode_label (unicode_database merged_lgr)) false
  = Raise ex ->
  let placeholder := label ++ ustr ": " ++ Py.unicode_of_exn py ex in
  let unidb := unicode_database merged_lgr in
  (forall keep_commented,
      read_labels py (x :: after) unidb false keep_commented
      = GYield placeholder (read_labels py after unidb false keep_commented)) /\
  (exists tr set_labels,
      read_set_labels py is_collision merged_lgr (before ++ x :: after) false false
      = (tr, Return set_labels) /\
      placeholder ∈ set_labels) /\
  (exists tr set_labels,
      read_set_labels py is_collision merged_lgr (before ++ x :: after) true false
      = (tr, Return set_labels) /\
      TestEligible (map Py.ord placeholder) ∈ tr /\
      (placeholder ∈ set_labels <-> eligible merged_lgr placeholder = true)).
Proof.
  intros Hl Hp placeholder unidb.
  assert (forall kc, lenient_items py unidb kc x = [placeholder]) as Hx.
  { intros kc. by apply lenient_items_failure. }
  assert (placeholder ∈ gen_items (read_labels py (before ++ x :: after) unidb false false))
    as Hin.
  { destruct (read_labels_lenient_items py unidb false (before ++ x :: after)) as [-> _].
    rewrite map_app, concat_app. simpl. rewrite Hx. set_solver. }
  destruct (read_labels_lenient_items py unidb false (before ++ x :: after)) as [_ Hnone].
  split; [|split].
  - intros kc. by rewrite read_labels_cons_lenient, Hx.
  - rewrite read_set_labels_eq.
    destruct (loop_completes py merged_lgr false false _ ∅ Hnone) as (tr & acc & E);
      [done|].
    fold unidb. rewrite E. apply loop_return in E as (_ & Hmem & _ & _).
    exists tr, acc. split; [done|]. apply Hmem. right. by split.
  - rewrite read_set_labels_eq.
    destruct (loop_completes py merged_lgr true false _ ∅ Hnone) as (tr & acc & E);
      [done|].
    fold unidb. rewrite E. apply loop_return in E as (_ & Hmem & _ & Htr).
    destruct (Htr eq_refl placeholder Hin) as [Htest _].
    assert (placeholder ∈ acc <-> eligible merged_lgr placeholder = true) as Hiff.
    { rewrite Hmem, elem_of_empty. tauto. }
    destruct (is_collision merged_lgr acc); eexists _, _;
      (split; [reflexivity|]); (split; [|done]); apply elem_of_app; by left.
Qed.

Lemma placeholder_is_ordinary_label_witness :
  read_labels ascii_only [ustr " a zz # note" ++ [10]; ustr "xy"] plain_db false false
  = GYield (ustr "a zz: " ++ spaces_message (ustr "a zz"))
      (GYield (ustr "xy") GStop) /\
  (exists tr set_labels,
      read_set_labels ascii_only ab_cd_collide lgr_az
        [ustr "ab"; ustr " a zz # note" ++ [10]; ustr "xy"] false false
      = (tr, Return set_labels) /\
      (ustr "a zz: " ++ spaces_message (ustr "a zz")) ∈ set_labels).
Proof.
  destruct (placeholder_is_ordinary_label ascii_only ab_cd_collide lgr_az
              [ustr "ab"] (ustr " a zz # note" ++ [10]) [ustr "xy"]
              (ustr "a zz") (ValueError (spaces_message (ustr "a zz"))))
    as (H1 & H2 & _); [reflexivity | reflexivity |].
  split; [|exact H2].
  etrans; [exact (H1 false) | reflexivity].
Defined.

(** ** merge_lgrs *)

Section MergeFacts.
Variable validate_document : option UnicodeDatabase -> ustring -> ustring -> option ustring.
Variable parse_document : option UnicodeDatabase -> ustring -> option LGR.
Variable merge_lgr_set : list LGR -> ustring -> LGR.

Lemma merge_loop_failure (input_lgrs : list ustring) (rng : option ustring)
    (unidb : option UnicodeDatabase) (lgr_set : list LGR) :
  (exists lgr_file, lgr_file ∈ input_lgrs /\ parse_document unidb lgr_file = None) ->
  exists t lgr_file,
    merge_loop validate_document parse_document input_lgrs rng unidb lgr_set
    = (t, None) /\
    lgr_file ∈ input_lgrs /\ parse_document unidb lgr_file = None /\
    LogError (parse_error_message lgr_file) ∈ t.
Proof.
  revert lgr_set. induction input_lgrs as [|f rest IH]; intros lgr_set (bad & Hin & Hbad).
  - by apply elem_of_nil in Hin.
  - cbn [merge_loop]. destruct (parse_document unidb f) as [lgr|] eqn:Ef.
    + apply elem_of_cons in Hin as [-> | Hin]; [congruence|].
      destruct (IH (lgr_set ++ [lgr])) as (t & file & E & Hfile & Hnone & Hlog);
        [by exists bad|].
      rewrite E. eexists _, file. split; [reflexivity|].
      split; [by apply elem_of_cons; right|]. split; [done|].
      apply elem_of_app. by right.
    + eexists _, f. split; [reflexivity|].
      split; [by apply elem_of_cons; left|]. split; [done|].
      apply elem_of_app. right. by apply elem_of_cons; left.
Qed.

Lemma merge_loop_success (input_lgrs : list ustring) (rng : option ustring)
    (unidb : option UnicodeDatabase) (lgr_set : list LGR) :
  Forall (fun f => parse_document unidb f <> None) input_lgrs ->
  exists t parsed,
    merge_loop validate_document parse_document input_lgrs rng unidb lgr_set
    = (t, Some (lgr_set ++ parsed)) /\
    map Some parsed = map (parse_document unidb) input_lgrs.
Proof.
  revert lgr_set. induction input_lgrs as [|f rest IH]; intros lgr_set Hall.
  - exists [], []. by rewrite app_nil_r.
  - cbn [merge_loop]. destruct (parse_document unidb f) as [lgr|] eqn:Ef.
    + destruct (IH (lgr_set ++ [lgr]) (Forall_inv_tail Hall)) as (t & parsed & E & Hp).
      rewrite E. eexists _, (lgr :: parsed). rewrite <- app_assoc.
      split; [reflexivity|]. simpl. by rewrite Ef, Hp.
    + by pose proof (Forall_inv Hall).
Qed.

End MergeFacts.

(** C5: when one of the sources does not parse into a ruleset, merge_lgrs
    returns None, with no merged ruleset, whatever the other sources are; the
    failure of a source is logged. *)
Theorem merge_lgrs_parse_failure
    (validate_document : option UnicodeDatabase -> ustring -> ustring -> option ustring)
    (parse_document : option UnicodeDatabase -> ustring -> option LGR)
    (merge_lgr_set : list LGR -> ustring -> LGR)
    (input_lgrs : list ustring) (name rng : option ustring)
    (unidb : option UnicodeDatabase) :
  (exists lgr_file, lgr_file ∈ input_lgrs /\ parse_document unidb lgr_file = None) ->
  exists t lgr_file,
    merge_lgrs validate_document parse_document merge_lgr_set input_lgrs name rng unidb
    = (t, None) /\
    lgr_file ∈ input_lgrs /\ parse_document unidb lgr_file = None /\
    LogError (parse_error_message lgr_file) ∈ t.
Proof.
  intros H. unfold merge_lgrs.
  destruct (merge_loop_failure validate_document parse_document input_lgrs rng unidb [] H)
    as (t & file & E & Hrest).
  rewrite E. by exists t, file.
Qed.

Lemma merge_lgrs_parse_failure_witness :
  (merge_lgrs (fun _ _ _ => None) parse_all_but_bad merge_first
     [ustr "a.xml"; ustr "bad.xml"; ustr "c.xml"] None None None).2 = None.
Proof.
  destruct (merge_lgrs_parse_failure (fun _ _ _ => None) parse_all_but_bad merge_first
              [ustr "a.xml"; ustr "bad.xml"; ustr "c.xml"] None None None)
    as (t & f & E & _).
  - exists (ustr "bad.xml"). split; [|reflexivity].
    apply (bool_decide_unpack _). vm_compute. exact I.
  - rewrite E. reflexivity.
Defined.

(** * Further properties *)

(** ** More on the builtins *)

Section StripFacts.
Variable sp : Z -> bool.

Lemma lstrip_by_spaces (a s : ustring) :
  Forall (fun c => sp c = true) a -> Py.lstrip_by sp (a ++ s) = Py.lstrip_by sp s.
Proof. induction 1 as [|c a Hc _ IH]; simpl; [done | by rewrite Hc]. Qed.

Lemma lstrip_by_stop (u : ustring) (k : Z) (v : ustring) :
  sp k = false -> Py.lstrip_by sp (u ++ k :: v) = Py.lstrip_by sp u ++ k :: v.
Proof.
  intros Hk. induction u as [|c u IH]; simpl; [by rewrite Hk|].
  by destruct (sp c).
Qed.

Lemma lstrip_by_split (s : ustring) :
  exists a, s = a ++ Py.lstrip_by sp s /\ Forall (fun c => sp c = true) a.
Proof.
  induction s as [|c s (a & Hs & Ha)]; simpl; [by exists []|].
  destruct (sp c) eqn:Hc; [|by exists []].
  exists (c :: a). split; [by rewrite Hs at 1 | by constructor].
Qed.

Lemma lstrip_by_nil (s : ustring) :
  Py.lstrip_by sp s = [] -> Forall (fun c => sp c = true) s.
Proof.
  intros H. destruct (lstrip_by_split s) as (a & Hs & Ha).
  rewrite H, app_nil_r in Hs. by subst.
Qed.

Lemma lstrip_by_app (s t : ustring) :
  Py.lstrip_by sp s <> [] -> Py.lstrip_by sp (s ++ t) = Py.lstrip_by sp s ++ t.
Proof.
  induction s as [|c s IH]; simpl; [done|].
  destruct (sp c); [exact IH | done].
Qed.

(** A string is its stripped form between two runs of whitespace. *)
Lemma strip_by_split (s : ustring) :
  exists a b, s = a ++ Py.strip_by sp s ++ b /\
              Forall (fun c => sp c = true) a /\ Forall (fun c => sp c = true) b.
Proof.
  destruct (lstrip_by_split s) as (a & Hs & Ha).
  destruct (lstrip_by_split (rev (Py.lstrip_by sp s))) as (b & Hr & Hb).
  exists a, (rev b). split; [|split; [done | by apply Forall_rev]].
  unfold Py.strip_by. rewrite <- rev_app_distr, <- Hr, rev_involutive. exact Hs.
Qed.

Lemma strip_by_pad (a s b : ustring) :
  Forall (fun c => sp c = true) a -> Forall (fun c => sp c = true) b ->
  Py.strip_by sp (a ++ s ++ b) = Py.strip_by sp s.
Proof.
  intros Ha Hb. unfold Py.strip_by. rewrite lstrip_by_spaces by done.
  destruct (Py.lstrip_by sp s) as [|c r] eqn:E.
  - apply lstrip_by_nil in E.
    assert (Py.lstrip_by sp (s ++ b) = []) as ->; [|done].
    rewrite <- (app_nil_r (s ++ b)), lstrip_by_spaces; [done|].
    apply Forall_app. by split.
  - rewrite lstrip_by_app, E by (rewrite E; done).
    rewrite rev_app_distr, lstrip_by_spaces; [done | by apply Forall_rev].
Qed.

Lemma strip_by_idem (s : ustring) :
  Py.strip_by sp (Py.strip_by sp s) = Py.strip_by sp s.
Proof.
  destruct (strip_by_split s) as (a & b & Hs & Ha & Hb).
  rewrite Hs at 2. by rewrite strip_by_pad.
Qed.

Lemma strip_by_lstrip (s : ustring) :
  Py.strip_by sp (Py.lstrip_by sp s) = Py.strip_by sp s.
Proof.
  destruct (lstrip_by_split s) as (a & Hs & Ha).
  rewrite Hs at 2.
  rewrite <- (app_nil_r (Py.lstrip_by sp s)) at 2.
  by rewrite strip_by_pad.
Qed.

Lemma strip_by_elem (s : ustring) (c : Z) : c ∈ Py.strip_by sp s -> c ∈ s.
Proof.
  destruct (strip_by_split s) as (a & b & Hs & _ & _).
  intros Hc. rewrite Hs, !elem_of_app. tauto.
Qed.

Lemma strip_by_spaces (s : ustring) :
  Forall (fun c => sp c = true) s -> Py.strip_by sp s = [].
Proof.
  intros Hs. unfold Py.strip_by.
  rewrite <- (app_nil_r s), lstrip_by_spaces by done. reflexivity.
Qed.

End StripFacts.

Section SplitFacts.
Variable py : Interpreter.

Lemma split_aux_sep (w : Z) (a b tok : ustring) :
  Py.isspace py w = true ->
  Py.split_aux py tok (a ++ w :: b) = Py.split_aux py tok a ++ Py.split_aux py [] b.
Proof.
  intros Hw. revert tok. induction a as [|c a IH]; intros tok; simpl.
  - rewrite Hw. by destruct tok.
  - destruct (Py.isspace py c); [|apply IH].
    destruct tok; rewrite IH; reflexivity.
Qed.

Lemma split_aux_spaces (s : ustring) :
  Forall (fun c => Py.isspace py c = true) s -> Py.split_aux py [] s = [].
Proof. induction 1 as [|c s Hc _ IH]; simpl; [done | by rewrite Hc]. Qed.

(** The characters of a token are characters of the string. *)
Lemma split_aux_elem (s tok t : ustring) (c : Z) :
  t ∈ Py.split_aux py tok s -> c ∈ t -> c ∈ tok \/ c ∈ s.
Proof.
  revert tok. induction s as [|d s IH]; intros tok Ht Hc; simpl in Ht.
  - destruct tok; [by apply elem_of_nil in Ht|].
    apply list_elem_of_singleton in Ht as ->. by left.
  - destruct (Py.isspace py d).
    + destruct tok as [|k tok].
      * destruct (IH [] Ht Hc) as [H|H]; [by apply elem_of_nil in H|].
        right. apply elem_of_cons. by right.
      * apply elem_of_cons in Ht as [-> | Ht]; [by left|].
        destruct (IH [] Ht Hc) as [H|H]; [by apply elem_of_nil in H|].
        right. apply elem_of_cons. by right.
    + destruct (IH _ Ht Hc) as [H|H].
      * apply elem_of_app in H as [H|H]; [by left|].
        apply list_elem_of_singleton in H as ->. right. apply elem_of_cons. by left.
      * right. apply elem_of_cons. by right.
Qed.

End SplitFacts.

Lemma for_each_app {A B} (f : A -> result B) (l1 l2 : list A) :
  for_each f (l1 ++ l2)
  = do x <- for_each f l1; do y <- for_each f l2; Return (x ++ y).
Proof.
  induction l1 as [|a l1 IH]; simpl.
  - by destruct (for_each f l2).
  - destruct (f a) as [b|e]; simpl; [|done]. rewrite IH.
    destruct (for_each f l1) as [x|e]; simpl; [|done].
    by destruct (for_each f l2).
Qed.

Lemma for_each_Forall {A B} (f : A -> result B) (P : B -> Prop)
    (l : list A) (r : list B) :
  (forall a b, a ∈ l -> f a = Return b -> P b) ->
  for_each f l = Return r -> Forall P r /\ length r = length l.
Proof.
  revert r. induction l as [|a l IH]; intros r Hf; simpl.
  - intros [= <-]. by split.
  - destruct (f a) as [b|e] eqn:Ea; simpl; [|done].
    destruct (for_each f l) as [ys|e] eqn:El; simpl; [|done].
    intros [= <-]. destruct (IH ys) as [Hall Hlen]; [|done|].
    + intros a' b' Ha'. apply Hf. apply elem_of_cons. by right.
    + split; [|by rewrite <- Hlen]. constructor; [|done].
      apply (Hf a b); [apply elem_of_cons; by left | done].
Qed.

Lemma for_each_unichr (cps : list Z) :
  Forall code_point cps -> for_each Py.unichr cps = Return cps.
Proof.
  induction 1 as [|c cps Hc _ IH]; simpl; [done|].
  unfold Py.unichr, Py.between, code_point in *. rewrite IH.
  destruct (Z.leb_spec 0 c); [|lia]. destruct (Z.leb_spec c 1114111); [|lia]. done.
Qed.

(** ** More on the parsers *)

Section ParserProperties.
Variable py : Interpreter.

Lemma parse_single_cp_range (s : ustring) (v : Z) :
  Forall code_point s -> parse_single_cp_input py s = Return v -> code_point v.
Proof.
  intros Hs. unfold parse_single_cp_input.
  destruct (len (Py.strip py s) =? 1) eqn:E.
  - destruct (Py.strip py s) as [|c [|? ?]] eqn:Es; [done | |].
    2: { unfold len in E. simpl length in E.
         destruct (Z.eqb_spec (Z.of_nat (S (S (length l)))) 1); [lia | done]. }
    intros [= <-].
    apply (proj1 (Forall_forall _ _) Hs).
    apply (strip_by_elem (Py.isspace py)). fold (Py.strip py s). rewrite Es.
    apply elem_of_cons. by left.
  - destruct (if Py.ustring_eqb _ _ then _ else _) as [w|e]; simpl; [|done].
    unfold code_point.
    destruct (Z.ltb_spec w 0); simpl; [done|].
    rewrite Z.gtb_ltb. destruct (Z.ltb_spec 1114111 w); [done|].
    intros [= <-]. lia.
Qed.

Lemma parse_codepoint_range (s : ustring) (cps : list Z) :
  Forall code_point s -> parse_codepoint_input py s = Return cps ->
  Forall code_point cps /\ length cps = length (Py.split py s).
Proof.
  intros Hs. unfold parse_codepoint_input. apply for_each_Forall.
  intros t v Ht. apply parse_single_cp_range.
  apply Forall_forall. intros c Hc.
  destruct (split_aux_elem py s [] t c Ht Hc) as [H|H]; [by apply elem_of_nil in H|].
  by apply (proj1 (Forall_forall _ _) Hs).
Qed.

Lemma hex_digit_not_space (s : ustring) :
  Forall (fun c => 32 < c < 128) s -> Py.strip py s = s.
Proof.
  intros H. apply strip_by_keep.
  eapply Forall_impl; [exact H|]. apply ascii_not_space.
Qed.

(** A token of two or more characters: its prefix decides how it is read. *)
Lemma parse_U_plus_any (u : Z) (rest : ustring) :
  u = 85 \/ u = 117 ->
  Forall (fun c => 32 < c < 128) rest ->
  parse_single_cp_input py (u :: 43 :: rest) =
  do v <- Py.int16 py rest;
  if (v <? 0) || (v >? 1114111) then Raise (ValueError out_of_range_message)
  else Return v.
Proof.
  intros Hu Hrest. unfold parse_single_cp_input.
  rewrite hex_digit_not_space.
  - assert ((len (u :: 43 :: rest) =? 1) = false) as ->.
    { unfold len. simpl length. zbool. }
    assert (Py.ustring_eqb (Py.upper py (Py.slice_to 2 (u :: 43 :: rest)))
              (ustr "U+") = true) as ->.
    { destruct Hu as [-> | ->]; reflexivity. }
    reflexivity.
  - constructor; [lia|]. constructor; [lia | done].
Qed.

Lemma parse_no_prefix (c : Z) (rest : ustring) :
  c < 128 -> Py.ascii_toupper c <> 85 -> rest <> [] ->
  Forall (fun c => 32 < c < 128) (c :: rest) ->
  parse_single_cp_input py (c :: rest) =
  do v <- Py.int16 py (c :: rest);
  if (v <? 0) || (v >? 1114111) then Raise (ValueError out_of_range_message)
  else Return v.
Proof.
  intros Hc HU Hne Hall. unfold parse_single_cp_input.
  rewrite hex_digit_not_space by done.
  assert ((len (c :: rest) =? 1) = false) as ->.
  { unfold len. destruct rest; [done|]. simpl length. zbool. }
  assert (Py.ustring_eqb (Py.upper py (Py.slice_to 2 (c :: rest)))
            (ustr "U+") = false) as ->; [|done].
  apply bool_decide_eq_false_2. intros H.
  change (Py.slice_to 2 (c :: rest)) with (c :: take 1 rest) in H.
  change (ustr "U+") with [85; 43] in H. simpl in H.
  injection H as H _. unfold Py.toupper in H.
  destruct (Z.ltb_spec c 128); [done | lia].
Qed.

Lemma hex_digit_not_U (c : Z) :
  Py.is_hex_digit c = true -> c < 128 /\ Py.ascii_toupper c <> 85.
Proof.
  unfold Py.is_hex_digit, Py.hex_digit_value, Py.ascii_toupper, Py.between. zbool.
Qed.

Lemma hex_digits_ascii (ds : ustring) :
  Forall (fun c => Py.is_hex_digit c = true) ds -> Forall (fun c => 32 < c < 128) ds.
Proof.
  intros H. eapply Forall_impl; [exact H|]. intros c Hc%hex_digit_range. lia.
Qed.

Lemma int16_neg_digits (ds : ustring) (v : Z) :
  ds <> [] -> Forall (fun c => Py.is_hex_digit c = true) ds ->
  Py.hex_value 0 ds = Some v ->
  Py.int16 py (45 :: ds) = Return (- v).
Proof.
  intros Hne Hall Hv. unfold Py.int16.
  assert (Forall (fun c => 32 < c < 128) (45 :: ds)) as Hr.
  { constructor; [lia | by apply hex_digits_ascii]. }
  rewrite encode_decimal_ascii, strip_by_keep; [|
    eapply Forall_impl; [exact Hr|]; intros c Hc;
    unfold Py.c_isspace, Py.between; zbool | done].
  assert (Py.split_sign (45 :: ds) = (-1, ds)) as -> by done.
  destruct ds as [|d r]; [done|].
  assert (Py.drop_0x (d :: r) = d :: r) as ->.
  { destruct r as [|x [|d' r']]; simpl; try done.
    pose proof (hex_digit_not_x x (Forall_inv (Forall_inv_tail Hall))).
    zbool. }
  rewrite Hv. f_equal; lia.
Qed.

End ParserProperties.

(** X1: whitespace before and after the input of parse_single_cp_input is
    ignored. *)
Theorem parse_single_cp_input_padding (py : Interpreter) (a s b : ustring) :
  Forall (fun c => Py.isspace py c = true) a ->
  Forall (fun c => Py.isspace py c = true) b ->
  parse_single_cp_input py (a ++ s ++ b) = parse_single_cp_input py s.
Proof.
  intros Ha Hb. unfold parse_single_cp_input, Py.strip.
  by rewrite strip_by_pad.
Qed.

Lemma parse_single_cp_input_padding_witness :
  parse_single_cp_input ascii_only (ustr "  " ++ ustr "u+1" ++ [9; 32])
  = parse_single_cp_input ascii_only (ustr "u+1").
Proof.
  apply (parse_single_cp_input_padding ascii_only (ustr "  ") (ustr "u+1") [9; 32]).
  - repeat constructor.
  - repeat constructor.
Defined.

(** X2: on a string of code points, every value parse_codepoint_input
    returns is a code point, in [0, 0x10FFFF], and there is one value for each
    whitespace-separated token. *)
Theorem parse_codepoint_input_in_range (py : Interpreter) (s : ustring)
    (cps : list Z) :
  Forall code_point s ->
  parse_codepoint_input py s = Return cps ->
  Forall code_point cps /\ length cps = length (Py.split py s).
Proof. apply parse_codepoint_range. Qed.

Lemma parse_codepoint_input_in_range_witness :
  Forall code_point [97; 1114111] /\
  length [97; 1114111] = length (Py.split ascii_only (ustr "a  U+10FFFF")).
Proof.
  apply (parse_codepoint_input_in_range ascii_only (ustr "a  U+10FFFF")).
  - vm_compute ustr. repeat (constructor; [unfold code_point; lia|]). constructor.
  - reflexivity.
Defined.

(** X3: a token of two or more characters with no "U+" prefix is read as a
    hex number: the hex digits of n (with or without "0x", in any case) give
    n when n is at most 0x10FFFF, and the range error beyond. *)
Theorem parse_single_cp_input_bare_hex (py : Interpreter) (n : Z) (s : ustring) :
  0 <= n -> len s <> 1 ->
  Py.ci_eqb s (Py.hex_digits n) = true \/ Py.ci_eqb s (Py.hex n) = true ->
  parse_single_cp_input py s =
  if n >? 1114111 then Raise (ValueError out_of_range_message) else Return n.
Proof.
  intros Hn Hlen H. destruct (hex_digits_spec n Hn) as (Hne & Hlow & Hval).
  assert (forall v, 0 <= v ->
            (if (v <? 0) || (v >? 1114111)
             then Raise (ValueError out_of_range_message) else Return v)
            = if v >? 1114111 then Raise (ValueError out_of_range_message)
              else Return v) as Hcheck.
  { intros v Hv. destruct (Z.ltb_spec v 0); [lia | done]. }
  destruct H as [H|H].
  - destruct (ci_hex_digits _ Hlow s 0 H) as (Hall & Hv & Hnil).
    destruct s as [|c rest]; [tauto|].
    destruct (hex_digit_not_U c (Forall_inv Hall)) as [Hc HU].
    rewrite parse_no_prefix; [| done | done | | by apply hex_digits_ascii].
    + rewrite (int16_digits py (c :: rest) n); [| done | done | congruence].
      simpl. by apply Hcheck.
    + intros ->. by apply Hlen.
  - unfold Py.hex in H. destruct (Z.ltb_spec n 0); [lia|].
    change (ustr "0x" ++ Py.hex_digits n) with (48 :: 120 :: Py.hex_digits n) in H.
    apply ci_eqb_cons in H as (z & s1 & -> & Hz & Ez & H).
    apply ci_eqb_cons in H as (x & ds & -> & Hx & Ex & H).
    destruct (ci_hex_digits _ Hlow ds 0 H) as (Hall & Hv & Hnil).
    assert (z = 48) as -> by (unfold Py.ascii_toupper, Py.between in Ez; zbool).
    assert (x = 120 \/ x = 88) as Hx'
      by (unfold Py.ascii_toupper, Py.between in Ex; zbool).
    rewrite parse_no_prefix; [| lia | done | done |].
    + rewrite (int16_0x_digits py x ds n); [| done | tauto | done | congruence].
      simpl. by apply Hcheck.
    + constructor; [lia|]. constructor; [lia | by apply hex_digits_ascii].
Qed.

Lemma parse_single_cp_input_bare_hex_witness :
  parse_single_cp_input ascii_only (ustr "0061") = Return 97 /\
  parse_single_cp_input ascii_only (ustr "0X10ffFF") = Return 1114111 /\
  parse_single_cp_input ascii_only (ustr "110000")
  = Raise (ValueError out_of_range_message).
Proof.
  split; [reflexivity|]. split.
  - apply (parse_single_cp_input_bare_hex ascii_only 1114111 (ustr "0X10ffFF"));
      [lia | discriminate | right; vm_compute; reflexivity].
  - apply (parse_single_cp_input_bare_hex ascii_only 1114112 (ustr "110000"));
      [lia | discriminate | left; vm_compute; reflexivity].
Defined.

(** X4: a negative hex number, with or without the "U+" prefix, is refused
    with the range error. *)
Theorem parse_single_cp_input_negative (py : Interpreter) (n : Z) (s : ustring) :
  0 < n ->
  Py.ci_eqb s (ustr "U+-" ++ Py.hex_digits n) = true \/
  Py.ci_eqb s (ustr "-" ++ Py.hex_digits n) = true ->
  parse_single_cp_input py s = Raise (ValueError out_of_range_message).
Proof.
  intros Hn H. destruct (hex_digits_spec n ltac:(lia)) as (Hne & Hlow & Hval).
  destruct H as [H|H].
  - change (ustr "U+-" ++ Py.hex_digits n) with (ustr "U+" ++ 45 :: Py.hex_digits n) in H.
    apply ci_U_plus in H as (u & s' & -> & Hu & H).
    apply ci_eqb_cons in H as (m & ds & -> & Hm & Em & H).
    destruct (ci_hex_digits _ Hlow ds 0 H) as (Hall & Hv & Hnil).
    assert (m = 45) as -> by (unfold Py.ascii_toupper, Py.between in Em; zbool).
    rewrite parse_U_plus_any; [| done |].
    + rewrite (int16_neg_digits py ds n); [| tauto | done | congruence].
      simpl. destruct (Z.ltb_spec (- n) 0); [done | lia].
    + constructor; [lia | by apply hex_digits_ascii].
  - change (ustr "-" ++ Py.hex_digits n) with (45 :: Py.hex_digits n) in H.
    apply ci_eqb_cons in H as (m & ds & -> & Hm & Em & H).
    destruct (ci_hex_digits _ Hlow ds 0 H) as (Hall & Hv & Hnil).
    assert (m = 45) as -> by (unfold Py.ascii_toupper, Py.between in Em; zbool).
    rewrite parse_no_prefix; [| lia | done | tauto |].
    + rewrite (int16_neg_digits py ds n); [| tauto | done | congruence].
      simpl. destruct (Z.ltb_spec (- n) 0); [done | lia].
    + constructor; [lia | by apply hex_digits_ascii].
Qed.

Lemma parse_single_cp_input_negative_witness :
  parse_single_cp_input ascii_only (ustr "u+-1F")
  = Raise (ValueError out_of_range_message).
Proof.
  apply (parse_single_cp_input_negative ascii_only 31 (ustr "u+-1F"));
    [lia | left; vm_compute; reflexivity].
Defined.

(** X5: a string of whitespace only that holds a space, and has no "xn--"
    prefix, is read by parse_label_input as the empty label: no error is
    raised for its spaces. *)
Theorem parse_label_input_only_spaces (py : Interpreter) (s : ustring)
    (dec : ustring -> result ustring) (as_cp : bool) :
  Forall (fun c => Py.isspace py c = true) s -> 32 ∈ s ->
  has_xn_prefix py s = false ->
  parse_label_input py s dec as_cp = Return [].
Proof.
  unfold has_xn_prefix, parse_label_input. intros Hs Hsp ->.
  change (ustr " ") with [32]. rewrite (proj2 (contains_char 32 s) Hsp). simpl.
  unfold parse_codepoint_input, Py.split. rewrite split_aux_spaces by done.
  by destruct as_cp.
Qed.

Lemma parse_label_input_only_spaces_witness :
  parse_label_input ascii_only [32; 9; 32] no_decoder true = Return [].
Proof.
  apply (parse_label_input_only_spaces ascii_only [32; 9; 32] no_decoder true).
  - repeat constructor.
  - apply (bool_decide_unpack _). vm_compute. exact I.
  - reflexivity.
Defined.

(** X6: on a string of code points, the two output forms of
    parse_label_input agree: the string returned when as_cp is false is the
    string of the code points returned when as_cp is true, and the same
    exception is raised in both forms. *)
Theorem parse_label_input_forms_agree (py : Interpreter) (s : ustring)
    (dec : ustring -> result ustring) :
  Forall code_point s ->
  parse_label_input py s dec false = parse_label_input py s dec true.
Proof.
  intros Hs. unfold parse_label_input.
  destruct (Py.startswith _ _).
  - destruct (dec _); simpl; [by rewrite map_ord | done].
  - destruct (_ || _).
    + destruct (parse_codepoint_input py s) as [cps|e] eqn:E; [|done].
      apply for_each_unichr. by apply (parse_codepoint_range py s cps).
    + by rewrite map_ord.
Qed.

Lemma parse_label_input_forms_agree_witness :
  parse_label_input ascii_only (ustr "U+0061 62 c") no_decoder false
  = Return [97; 98; 99].
Proof.
  etrans.
  - apply (parse_label_input_forms_agree ascii_only (ustr "U+0061 62 c") no_decoder).
    vm_compute ustr. repeat (constructor; [unfold code_point; lia|]). constructor.
  - reflexivity.
Defined.

(** X7: parse_codepoint_input reads the two sides of a whitespace character
    one after the other: the result is the values of the left side followed
    by those of the right side, and the first error met, left side first, is
    the error raised. *)
Theorem parse_codepoint_input_concat (py : Interpreter) (w : Z) (a b : ustring) :
  Py.isspace py w = true ->
  parse_codepoint_input py (a ++ w :: b)
  = do x <- parse_codepoint_input py a;
    do y <- parse_codepoint_input py b;
    Return (x ++ y).
Proof.
  intros Hw. unfold parse_codepoint_input, Py.split.
  by rewrite split_aux_sep, for_each_app.
Qed.

Lemma parse_codepoint_input_concat_witness :
  parse_codepoint_input ascii_only (ustr "0061 b" ++ 9 :: ustr " U+63")
  = Return ([97; 98] ++ [99]).
Proof.
  etrans.
  - apply (parse_codepoint_input_concat ascii_only 9 (ustr "0061 b") (ustr " U+63")).
    reflexivity.
  - reflexivity.
Defined.

(** ** More on read_labels *)

Lemma find_from_char (i c : Z) (a b : ustring) :
  c ∉ a -> Py.find_from i [c] (a ++ c :: b) = i + len a.
Proof.
  revert i. induction a as [|d a IH]; intros i Ha; simpl.
  - rewrite Z.eqb_refl. simpl. unfold len. simpl. lia.
  - apply not_elem_of_cons in Ha as [Hd Ha].
    destruct (Z.eqb_spec c d); [done|]. simpl.
    rewrite IH by done. unfold len. simpl length. lia.
Qed.

Section CommentFacts.
Variable py : Interpreter.

(** The stripped form of a line with a comment: the text before the "#",
    stripped on its left, the "#", and the comment stripped on its right. *)
Lemma strip_commented (x comment : ustring) :
  Py.strip py (x ++ 35 :: comment)
  = Py.lstrip_by (Py.isspace py) x ++
    35 :: rev (Py.lstrip_by (Py.isspace py) (rev comment)).
Proof.
  unfold Py.strip, Py.strip_by.
  rewrite lstrip_by_stop by done.
  rewrite rev_app_distr. simpl rev. rewrite <- app_assoc. simpl app.
  rewrite lstrip_by_stop by done.
  rewrite rev_app_distr. simpl rev. rewrite rev_involutive, <- app_assoc. done.
Qed.

Lemma lstrip_nonempty (x : ustring) :
  Py.strip py x <> [] -> Py.lstrip_by (Py.isspace py) x <> [].
Proof.
  intros H E. apply H. unfold Py.strip, Py.strip_by. by rewrite E.
Qed.

Lemma lstrip_elem (sp : Z -> bool) (x : ustring) (c : Z) :
  c ∈ Py.lstrip_by sp x -> c ∈ x.
Proof.
  destruct (lstrip_by_split sp x) as (a & Hx & _).
  intros Hc. rewrite Hx. apply elem_of_app. by right.
Qed.

Lemma commented_line_label (x comment : ustring) :
  35 ∉ x -> Py.strip py x <> [] ->
  let label := Py.strip py (x ++ 35 :: comment) in
  Py.contains [35] label = true /\
  (Py.find [35] label =? 0) = false /\
  Py.strip py (Py.slice_to (Py.find [35] label) label) = Py.strip py x /\
  Py.contains [35] (Py.strip py x) = false.
Proof.
  intros Hx Hne label. subst label. rewrite strip_commented.
  pose proof (lstrip_nonempty x Hne) as Hl.
  assert (35 ∉ Py.lstrip_by (Py.isspace py) x) as Hnot.
  { intros H. by apply Hx, (lstrip_elem (Py.isspace py)). }
  set (x' := Py.lstrip_by (Py.isspace py) x) in *.
  set (c' := rev (Py.lstrip_by (Py.isspace py) (rev comment))).
  unfold Py.find. rewrite find_from_char by done.
  split; [|split; [|split]].
  - apply contains_char, elem_of_app. right. apply elem_of_cons. by left.
  - unfold len. destruct x'; [done|]. simpl length. zbool.
  - unfold Py.slice_to, len. rewrite Z.add_0_l, Nat2Z.id, take_app_length.
    apply (strip_by_lstrip (Py.isspace py)).
  - apply contains_char_false. intros H. apply Hx.
    by apply (strip_by_elem (Py.isspace py)).
Qed.

End CommentFacts.

Section ReadLabelsProperties.
Variable py : Interpreter.
Variable unidb : UnicodeDatabase.

Lemma read_labels_cons_strict (kc : bool) (x : ustring) (input : list ustring) :
  read_labels py (x :: input) unidb true kc
  = match line_error py unidb x with
    | Some ex => GRaise ex
    | None => prepend (lenient_items py unidb kc x) (read_labels py input unidb true kc)
    end.
Proof.
  unfold line_error, lenient_items, label_of_line. cbn [read_labels].
  generalize (ustr "#") (ustr ": "). intros h sep.
  destruct (Py.contains h (Py.strip py x)); simpl.
  - destruct (Py.find h (Py.strip py x) =? 0); simpl.
    + by destruct kc.
    + destruct (len _ =? 0); [done|].
      by destruct (parse_label_input _ _ _ _).
  - destruct (len _ =? 0); [done|].
    by destruct (parse_label_input _ _ _ _).
Qed.

Lemma read_labels_strict_same (kc : bool) (input : list ustring) :
  Forall (fun x => line_error py unidb x = None) input ->
  read_labels py input unidb true kc = read_labels py input unidb false kc.
Proof.
  induction 1 as [|x input Hx _ IH]; [done|].
  by rewrite read_labels_cons_strict, read_labels_cons_lenient, Hx, IH.
Qed.

Lemma read_labels_strict_no_raise (kc : bool) (input : list ustring) :
  gen_raises (read_labels py input unidb true kc) = None ->
  Forall (fun x => line_error py unidb x = None) input.
Proof.
  induction input as [|x input IH]; [constructor|].
  rewrite read_labels_cons_strict.
  destruct (line_error py unidb x) eqn:E; [done|].
  rewrite gen_raises_prepend. intros H. constructor; [done | by apply IH].
Qed.

Lemma read_labels_strict_stop (kc : bool) (before : list ustring) (x : ustring)
    (after : list ustring) (ex : exn) :
  Forall (fun x => line_error py unidb x = None) before ->
  line_error py unidb x = Some ex ->
  read_labels py (before ++ x :: after) unidb true kc
  = prepend (gen_items (read_labels py before unidb false kc)) (GRaise ex).
Proof.
  intros Hb Hx. induction Hb as [|y before Hy _ IH]; simpl app.
  - by rewrite read_labels_cons_strict, Hx.
  - rewrite read_labels_cons_strict, Hy, IH, read_labels_cons_lenient.
    rewrite gen_items_prepend.
    generalize (lenient_items py unidb kc y). intros items.
    induction items as [|a items IHi]; simpl; [done | by rewrite IHi].
Qed.

Lemma lenient_items_length (kc : bool) (x : ustring) :
  (length (lenient_items py unidb kc x) <= 1)%nat.
Proof.
  unfold lenient_items.
  destruct (_ && _); [destruct kc; simpl; lia|].
  destruct (label_of_line py x); [|simpl; lia].
  destruct (parse_label_input _ _ _ _); simpl; lia.
Qed.

End ReadLabelsProperties.

(** X8: when errors are not raised, read_labels never raises, whatever the
    lines are, and yields at most one item for each line. *)
Theorem read_labels_lenient_total (py : Interpreter) (unidb : UnicodeDatabase)
    (input : list ustring) (keep_commented : bool) :
  gen_raises (read_labels py input unidb false keep_commented) = None /\
  (length (gen_items (read_labels py input unidb false keep_commented))
   <= length input)%nat.
Proof.
  destruct (read_labels_lenient_items py unidb keep_commented input) as [-> Hnone].
  split; [done|]. clear Hnone.
  induction input as [|x input IH]; simpl; [lia|].
  rewrite length_app.
  pose proof (lenient_items_length py unidb keep_commented x). lia.
Qed.

(** X9: with errors raised, read_labels ends without an exception exactly
    when no line carries a label that fails to parse, and it then yields
    what it yields with errors not raised. *)
Theorem read_labels_strict_without_error (py : Interpreter)
    (unidb : UnicodeDatabase) (input : list ustring) (keep_commented : bool) :
  (gen_raises (read_labels py input unidb true keep_commented) = None <->
   Forall (fun x => line_error py unidb x = None) input) /\
  (gen_raises (read_labels py input unidb true keep_commented) = None ->
   read_labels py input unidb true keep_commented
   = read_labels py input unidb false keep_commented).
Proof.
  split; [split|].
  - apply read_labels_strict_no_raise.
  - intros H. rewrite read_labels_strict_same by done.
    apply read_labels_lenient_items.
  - intros H. apply read_labels_strict_same.
    by apply (read_labels_strict_no_raise py unidb keep_commented).
Qed.

Lemma read_labels_strict_without_error_witness :
  read_labels ascii_only [ustr "abc"; ustr "# note"; ustr "U+0061 0062"] plain_db true true
  = read_labels ascii_only [ustr "abc"; ustr "# note"; ustr "U+0061 0062"] plain_db false true.
Proof.
  apply (proj2 (read_labels_strict_without_error ascii_only plain_db
                  [ustr "abc"; ustr "# note"; ustr "U+0061 0062"] true)).
  reflexivity.
Defined.

(** X10: with errors raised, read_labels stops at the first line whose label
    fails to parse: it yields what the lines before it yield and raises the
    error of that line; the lines after it play no part. *)
Theorem read_labels_stops_at_first_error (py : Interpreter)
    (unidb : UnicodeDatabase) (before : list ustring) (x : ustring)
    (after : list ustring) (ex : exn) (keep_commented : bool) :
  Forall (fun x => line_error py unidb x = None) before ->
  line_error py unidb x = Some ex ->
  gen_items (read_labels py (before ++ x :: after) unidb true keep_commented)
  = gen_items (read_labels py before unidb false keep_commented) /\
  gen_raises (read_labels py (before ++ x :: after) unidb true keep_commented)
  = Some ex.
Proof.
  intros Hb Hx. rewrite (read_labels_strict_stop py unidb _ before x after ex Hb Hx).
  by rewrite gen_items_prepend, gen_raises_prepend, app_nil_r.
Qed.

Lemma read_labels_stops_at_first_error_witness :
  gen_items (read_labels ascii_only [ustr "abc"; ustr "a zz"; ustr "xy"] plain_db true false)
  = [ustr "abc"] /\
  gen_raises (read_labels ascii_only [ustr "abc"; ustr "a zz"; ustr "xy"] plain_db true false)
  = Some (ValueError (spaces_message (ustr "a zz"))).
Proof.
  apply (read_labels_stops_at_first_error ascii_only plain_db
           [ustr "abc"] (ustr "a zz") [ustr "xy"]
           (ValueError (spaces_message (ustr "a zz"))) false).
  - repeat constructor.
  - reflexivity.
Defined.

(** X11: a line whose first character after stripping is "#" is never
    parsed: it is yielded stripped when commented labels are kept, and
    dropped otherwise, in both modes. *)
Theorem read_labels_full_line_comment (py : Interpreter) (unidb : UnicodeDatabase)
    (x rest : ustring) (input : list ustring) (do_raise keep_commented : bool) :
  Py.strip py x = 35 :: rest ->
  read_labels py (x :: input) unidb do_raise keep_commented
  = if keep_commented
    then GYield (35 :: rest) (read_labels py input unidb do_raise keep_commented)
    else read_labels py input unidb do_raise keep_commented.
Proof.
  intros Hx. cbn [read_labels]. rewrite Hx. reflexivity.
Qed.

Lemma read_labels_full_line_comment_witness :
  read_labels ascii_only [ustr "  # U+zz " ++ [10]; ustr "abc"] plain_db true true
  = GYield (ustr "# U+zz") (GYield (ustr "abc") GStop).
Proof.
  etrans.
  - apply (read_labels_full_line_comment ascii_only plain_db
             (ustr "  # U+zz " ++ [10]) (ustr " U+zz") [ustr "abc"] true true).
    reflexivity.
  - reflexivity.
Defined.

(** X12: a comment after a label is ignored: when the text before the "#"
    has no "#" and is not blank, the line is read as that text alone. *)
Theorem read_labels_inline_comment (py : Interpreter) (unidb : UnicodeDatabase)
    (x comment : ustring) (input : list ustring) (do_raise keep_commented : bool) :
  35 ∉ x -> Py.strip py x <> [] ->
  read_labels py ((x ++ 35 :: comment) :: input) unidb do_raise keep_commented
  = read_labels py (x :: input) unidb do_raise keep_commented.
Proof.
  intros Hx Hne.
  destruct (commented_line_label py x comment Hx Hne) as (H1 & H2 & H3 & H4).
  cbn [read_labels]. change (ustr "#") with [35].
  by rewrite H1, H2, H3, H4.
Qed.

Lemma read_labels_inline_comment_witness :
  read_labels ascii_only [ustr " U+0061 0062 " ++ 35 :: ustr " a, b"] plain_db true false
  = read_labels ascii_only [ustr " U+0061 0062 "] plain_db true false.
Proof.
  apply (read_labels_inline_comment ascii_only plain_db
           (ustr " U+0061 0062 ") (ustr " a, b") [] true false).
  - apply (bool_decide_unpack _). vm_compute. exact I.
  - discriminate.
Defined.

(** ** More on read_set_labels *)

Section SetLabelsProperties.
Variable py : Interpreter.
Variable lgr : LGR.

Lemma loop_no_validation_trace (d : bool) (g : gen ustring) (acc : gset ustring) :
  (set_labels_loop py lgr false d g acc).1 = [].
Proof.
  revert acc. induction g as [|label rest IH|e]; intros acc; [done| |done].
  rewrite loop_yield. apply IH.
Qed.

(** When every label read is eligible, or validation is off, the loop does
    the same in both modes. *)
Lemma loop_mode_same (v : bool) (g : gen ustring) (acc : gset ustring) :
  (v = true -> Forall (fun l => eligible lgr l = true) (gen_items g)) ->
  set_labels_loop py lgr v true g acc = set_labels_loop py lgr v false g acc.
Proof.
  revert acc. induction g as [|label rest IH|e]; intros acc Hall; [done| |done].
  rewrite !loop_yield. simpl in Hall. destruct v.
  - rewrite (Forall_inv (Hall eq_refl)).
    rewrite IH; [done|]. intros _. exact (Forall_inv_tail (Hall eq_refl)).
  - apply IH. discriminate.
Qed.

Lemma loop_reader_raises (v : bool) (items : list ustring) (ex : exn)
    (acc : gset ustring) :
  (v = true -> Forall (fun l => eligible lgr l = true) items) ->
  (set_labels_loop py lgr v true (prepend items (GRaise ex)) acc).2 = Raise ex.
Proof.
  revert acc. induction items as [|label items IH]; intros acc Hall; [done|].
  simpl prepend. rewrite loop_yield. destruct v.
  - rewrite (Forall_inv (Hall eq_refl)). simpl.
    apply IH. intros _. exact (Forall_inv_tail (Hall eq_refl)).
  - apply IH. discriminate.
Qed.

Lemma read_set_labels_lenient_result (is_collision : LGR -> gset ustring -> bool)
    (labels : list ustring) (v : bool) :
  exists tr acc,
    read_set_labels py is_collision lgr labels v false = (tr, Return acc) /\
    forall l, l ∈ acc <->
      l ∈ gen_items (read_labels py labels (unicode_database lgr) false false) /\
      (v = true -> eligible lgr l = true).
Proof.
  rewrite read_set_labels_eq.
  destruct (read_labels_lenient_items py (unicode_database lgr) false labels)
    as [_ Hnone].
  destruct (loop_completes py lgr v false _ ∅ Hnone) as (tr & acc & E); [done|].
  rewrite E. apply loop_return in E as (_ & Hmem & _ & _).
  assert (forall l, l ∈ acc <->
            l ∈ gen_items (read_labels py labels (unicode_database lgr) false false) /\
            (v = true -> eligible lgr l = true)) as Hacc.
  { intros l. rewrite Hmem, elem_of_empty. tauto. }
  destruct v; [|by exists tr, acc].
  destruct (is_collision lgr acc); by eexists _, acc.
Qed.

End SetLabelsProperties.

(** X13: without validation read_set_labels logs nothing and calls neither
    the eligibility test nor the collision check; in non-raising mode it
    returns exactly the set of the labels read. *)
Theorem read_set_labels_without_validation (py : Interpreter)
    (is_collision : LGR -> gset ustring -> bool) (merged_lgr : LGR)
    (labels : list ustring) (do_raise : bool) :
  (read_set_labels py is_collision merged_lgr labels false do_raise).1 = [] /\
  exists set_labels,
    read_set_labels py is_collision merged_lgr labels false false
    = ([], Return set_labels) /\
    forall l, l ∈ set_labels <->
      l ∈ gen_items (read_labels py labels (unicode_database merged_lgr) false false).
Proof.
  assert (forall d, (read_set_labels py is_collision merged_lgr labels false d).1 = [])
    as Htr.
  { intros d. rewrite read_set_labels_eq.
    pose proof (loop_no_validation_trace py merged_lgr d
                  (read_labels py labels (unicode_database merged_lgr) d false) ∅) as H.
    by destruct (set_labels_loop _ _ _ _ _ _) as [tr [acc|e]]. }
  split; [apply Htr|].
  destruct (read_set_labels_lenient_result py merged_lgr is_collision labels false)
    as (tr & acc & E & Hmem).
  specialize (Htr false). rewrite E in Htr. simpl in Htr. subst tr.
  exists acc. split; [done|]. intros l. rewrite Hmem. split; [tauto|].
  intros H. split; [done | discriminate].
Qed.

(** X14: in non-raising mode the set read_set_labels returns does not depend
    on the order of the lines nor on how often a line occurs. *)
Theorem read_set_labels_order_irrelevant (py : Interpreter)
    (is_collision : LGR -> gset ustring -> bool) (merged_lgr : LGR)
    (labels1 labels2 : list ustring) (validate_labels : bool) :
  (forall x, x ∈ labels1 <-> x ∈ labels2) ->
  (read_set_labels py is_collision merged_lgr labels1 validate_labels false).2
  = (read_set_labels py is_collision merged_lgr labels2 validate_labels false).2.
Proof.
  intros Hsame.
  destruct (read_set_labels_lenient_result py merged_lgr is_collision labels1
              validate_labels) as (tr1 & acc1 & -> & H1).
  destruct (read_set_labels_lenient_result py merged_lgr is_collision labels2
              validate_labels) as (tr2 & acc2 & -> & H2).
  simpl. f_equal. apply set_eq. intros l. rewrite H1, H2.
  destruct (read_labels_lenient_items py (unicode_database merged_lgr) false labels1)
    as [-> _].
  destruct (read_labels_lenient_items py (unicode_database merged_lgr) false labels2)
    as [-> _].
  assert (forall labels, l ∈ concat (map (lenient_items py (unicode_database merged_lgr) false) labels)
            <-> exists x, x ∈ labels /\ l ∈ lenient_items py (unicode_database merged_lgr) false x)
    as Hin.
  { intros labels. induction labels as [|y labels IH]; simpl.
    - rewrite elem_of_nil. split; [done|]. intros (x & Hx & _). by apply elem_of_nil in Hx.
    - rewrite elem_of_app, IH. split.
      + intros [H|(x & Hx & H)].
        * exists y. split; [apply elem_of_cons; by left | done].
        * exists x. split; [apply elem_of_cons; by right | done].
      + intros (x & [-> | Hx]%elem_of_cons & H); [by left|].
        right. by exists x. }
  rewrite !Hin. split; intros [(x & Hx & Hl) Hv]; (split; [|done]);
    exists x; (split; [by apply Hsame | done]).
Qed.

Lemma read_set_labels_order_irrelevant_witness :
  (read_set_labels ascii_only ab_cd_collide lgr_az
     [ustr "cd"; ustr "ab"; ustr "cd"] true false).2
  = (read_set_labels ascii_only ab_cd_collide lgr_az
       [ustr "ab"; ustr "cd"] true false).2.
Proof.
  apply (read_set_labels_order_irrelevant ascii_only ab_cd_collide lgr_az
           [ustr "cd"; ustr "ab"; ustr "cd"] [ustr "ab"; ustr "cd"] true).
  intros x. rewrite !elem_of_cons, !elem_of_nil. tauto.
Defined.

(** X15: whenever read_set_labels returns a set in raising mode, it leaves
    the same trace and returns the same set in non-raising mode. *)
Theorem read_set_labels_strict_return (py : Interpreter)
    (is_collision : LGR -> gset ustring -> bool) (merged_lgr : LGR)
    (labels : list ustring) (validate_labels : bool)
    (tr : list event) (set_labels : gset ustring) :
  read_set_labels py is_collision merged_lgr labels validate_labels true
  = (tr, Return set_labels) ->
  read_set_labels py is_collision merged_lgr labels validate_labels false
  = (tr, Return set_labels).
Proof.
  rewrite !read_set_labels_eq.
  destruct (set_labels_loop py merged_lgr validate_labels true _ ∅)
    as [t [acc|e]] eqn:E; [|done].
  pose proof (loop_return _ _ _ _ _ _ _ _ E) as (Hnone & _ & Hall & _).
  apply read_labels_strict_no_raise, (read_labels_strict_same _ _ false) in Hnone.
  rewrite Hnone in E, Hall.
  rewrite loop_mode_same in E by (intros Hv; by apply Hall).
  rewrite E.
  destruct validate_labels; [|done].
  by destruct (is_collision merged_lgr acc).
Qed.

Lemma read_set_labels_strict_return_witness :
  exists tr set_labels,
    read_set_labels ascii_only ab_cd_collide lgr_az
      [ustr "ab"; ustr "# note"; ustr "xy"] true false = (tr, Return set_labels) /\
    ustr "xy" ∈ set_labels.
Proof.
  eexists _, _. split.
  - apply (read_set_labels_strict_return ascii_only ab_cd_collide lgr_az
             [ustr "ab"; ustr "# note"; ustr "xy"] true).
    reflexivity.
  - apply (bool_decide_unpack _). vm_compute. exact I.
Defined.

(** X16: in raising mode, when the lines before the first line that fails
    to parse give eligible labels only (or validation is off), read_set_labels
    raises the parse error of that line, and the collision check is not
    called. *)
Theorem read_set_labels_parse_error (py : Interpreter)
    (is_collision : LGR -> gset ustring -> bool) (merged_lgr : LGR)
    (before : list ustring) (x : ustring) (after : list ustring) (ex : exn)
    (validate_labels : bool) :
  Forall (fun y => line_error py (unicode_database merged_lgr) y = None) before ->
  line_error py (unicode_database merged_lgr) x = Some ex ->
  (validate_labels = true ->
   Forall (fun l => eligible merged_lgr l = true)
     (gen_items (read_labels py before (unicode_database merged_lgr) false false))) ->
  (read_set_labels py is_collision merged_lgr (before ++ x :: after)
     validate_labels true).2 = Raise ex /\
  collision_checks
    (read_set_labels py is_collision merged_lgr (before ++ x :: after)
       validate_labels true).1 = [].
Proof.
  intros Hb Hx Hall. rewrite read_set_labels_eq.
  rewrite (read_labels_strict_stop py _ false before x after ex Hb Hx).
  pose proof (loop_reader_raises py merged_lgr validate_labels _ ex ∅ Hall) as Hr.
  pose proof (loop_no_collision_check py merged_lgr validate_labels true
                (prepend (gen_items (read_labels py before (unicode_database merged_lgr)
                                       false false)) (GRaise ex)) ∅) as Hc.
  destruct (set_labels_loop _ _ _ _ _ _) as [t [acc|e]]; simpl in *; [done|].
  split; [done | exact Hc].
Qed.

Lemma read_set_labels_parse_error_witness :
  (read_set_labels ascii_only ab_cd_collide lgr_az
     [ustr "ab"; ustr "a zz"; ustr "cd"] true true).2
  = Raise (ValueError (spaces_message (ustr "a zz"))).
Proof.
  apply (read_set_labels_parse_error ascii_only ab_cd_collide lgr_az
           [ustr "ab"] (ustr "a zz") [ustr "cd"]
           (ValueError (spaces_message (ustr "a zz"))) true).
  - repeat constructor.
  - reflexivity.
  - intros _. repeat constructor.
Defined.

(** ** More on merge_lgrs *)

Section MergeProperties.
Variable validate_document : option UnicodeDatabase -> ustring -> ustring -> option ustring.
Variable parse_document : option UnicodeDatabase -> ustring -> option LGR.

Lemma merge_loop_rng (input_lgrs : list ustring) (rng : option ustring)
    (unidb : option UnicodeDatabase) (lgr_set : list LGR) :
  (merge_loop validate_document parse_document input_lgrs rng unidb lgr_set).2
  = (merge_loop validate_document parse_document input_lgrs None unidb lgr_set).2.
Proof.
  revert lgr_set. induction input_lgrs as [|f rest IH]; intros lgr_set; [done|].
  cbn [merge_loop]. destruct (parse_document unidb f) as [lgr|]; [|done].
  specialize (IH (lgr_set ++ [lgr])).
  destruct (merge_loop _ _ rest rng _ _), (merge_loop _ _ rest None _ _). exact IH.
Qed.

Lemma merge_loop_no_rng (input_lgrs : list ustring) (rng : option ustring)
    (unidb : option UnicodeDatabase) (lgr_set parsed : list LGR) (t : list event) :
  truthy rng = false ->
  merge_loop validate_document parse_document input_lgrs rng unidb lgr_set
  = (t, Some parsed) -> t = [].
Proof.
  intros Hrng. revert lgr_set t.
  induction input_lgrs as [|f rest IH]; intros lgr_set t; cbn [merge_loop].
  - by intros [= <- _].
  - rewrite Hrng. destruct (parse_document unidb f) as [lgr|]; [|done].
    destruct (merge_loop _ _ rest rng _ _) as [t' r] eqn:E.
    intros [= <- ->]. by apply (IH _ _ E).
Qed.

Lemma merge_loop_stop (before : list ustring) (bad : ustring) (after : list ustring)
    (rng : option ustring) (unidb : option UnicodeDatabase) (lgr_set : list LGR) :
  parse_document unidb bad = None ->
  merge_loop validate_document parse_document (before ++ bad :: after) rng unidb lgr_set
  = merge_loop validate_document parse_document (before ++ [bad]) rng unidb lgr_set.
Proof.
  intros Hbad. revert lgr_set.
  induction before as [|f before IH]; intros lgr_set; simpl app; cbn [merge_loop].
  - by rewrite Hbad.
  - destruct (parse_document unidb f) as [lgr|]; [|done]. by rewrite IH.
Qed.

End MergeProperties.

(** X17: when every source parses, merge_lgrs returns the merged ruleset
    with the rulesets of the sources, all of them and in the order of the
    sources; the merge is made under the given name, or under
    "merged-lgr-set" when the name is missing or empty; the database, when
    one is given, is attached to the merged ruleset; and without a schema
    nothing is logged. *)
Theorem merge_lgrs_success
    (validate_document : option UnicodeDatabase -> ustring -> ustring -> option ustring)
    (parse_document : option UnicodeDatabase -> ustring -> option LGR)
    (merge_lgr_set : list LGR -> ustring -> LGR)
    (input_lgrs : list ustring) (name rng : option ustring)
    (unidb : option UnicodeDatabase) :
  Forall (fun f => parse_document unidb f <> None) input_lgrs ->
  exists t merged_lgr lgr_set,
    merge_lgrs validate_document parse_document merge_lgr_set input_lgrs name rng unidb
    = (t, Some (merged_lgr, lgr_set)) /\
    map Some lgr_set = map (parse_document unidb) input_lgrs /\
    test_label_eligible merged_lgr
    = test_label_eligible
        (merge_lgr_set lgr_set
           (match name with
            | Some (c :: r) => c :: r
            | _ => ustr "merged-lgr-set"
            end)) /\
    unicode_database merged_lgr
    = match unidb with
      | Some db => db
      | None => unicode_database
                  (merge_lgr_set lgr_set
                     (match name with
                      | Some (c :: r) => c :: r
                      | _ => ustr "merged-lgr-set"
                      end))
      end /\
    (truthy rng = false -> t = []).
Proof.
  intros Hall. unfold merge_lgrs.
  destruct (merge_loop_success validate_document parse_document input_lgrs rng unidb [] Hall)
    as (t & parsed & E & Hp).
  rewrite E. simpl app.
  assert ((if truthy name then default [] name else ustr "merged-lgr-set")
          = match name with
            | Some (c :: r) => c :: r
            | _ => ustr "merged-lgr-set"
            end) as -> by (by destruct name as [[|c r]|]).
  eexists t, _, parsed. split; [reflexivity|]. split; [done|].
  split; [by destruct unidb|]. split; [by destruct unidb|].
  intros Hrng. by apply (merge_loop_no_rng _ _ _ _ _ _ _ _ Hrng E).
Qed.

Lemma merge_lgrs_success_witness :
  exists t merged_lgr lgr_set,
    merge_lgrs (fun _ _ _ => None) parse_all_but_bad merge_first
      [ustr "a.xml"; ustr "c.xml"] None None (Some plain_db)
    = (t, Some (merged_lgr, lgr_set)) /\
    length lgr_set = 2%nat /\ unicode_database merged_lgr = plain_db.
Proof.
  destruct (merge_lgrs_success (fun _ _ _ => None) parse_all_but_bad merge_first
              [ustr "a.xml"; ustr "c.xml"] None None (Some plain_db))
    as (t & m & ls & E & Hmap & _ & Hdb & _).
  - repeat constructor; discriminate.
  - exists t, m, ls. split; [exact E|]. split; [|exact Hdb].
    apply (f_equal length) in Hmap. rewrite !length_map in Hmap. exact Hmap.
Defined.

(** X18: the schema is advisory: with or without one, whatever the
    validation of the sources says, merge_lgrs returns the same result; only
    the log differs. *)
Theorem merge_lgrs_schema_advisory
    (validate_document : option UnicodeDatabase -> ustring -> ustring -> option ustring)
    (parse_document : option UnicodeDatabase -> ustring -> option LGR)
    (merge_lgr_set : list LGR -> ustring -> LGR)
    (input_lgrs : list ustring) (name rng : option ustring)
    (unidb : option UnicodeDatabase) :
  (merge_lgrs validate_document parse_document merge_lgr_set input_lgrs name rng unidb).2
  = (merge_lgrs validate_document parse_document merge_lgr_set input_lgrs name None unidb).2.
Proof.
  unfold merge_lgrs.
  pose proof (merge_loop_rng validate_document parse_document input_lgrs rng unidb []) as H.
  destruct (merge_loop _ _ input_lgrs rng _ _) as [t1 [l1|]],
           (merge_loop _ _ input_lgrs None _ _) as [t2 [l2|]];
    simpl in H; try discriminate; [|done].
  injection H as ->. reflexivity.
Qed.

(** X19: merge_lgrs stops at the first source that does not parse: the
    sources after it are neither validated nor parsed, and change neither the
    result nor the log. *)
Theorem merge_lgrs_stops_at_failure
    (validate_document : option UnicodeDatabase -> ustring -> ustring -> option ustring)
    (parse_document : option UnicodeDatabase -> ustring -> option LGR)
    (merge_lgr_set : list LGR -> ustring -> LGR)
    (before : list ustring) (bad : ustring) (after : list ustring)
    (name rng : option ustring) (unidb : option UnicodeDatabase) :
  parse_document unidb bad = None ->
  merge_lgrs validate_document parse_document merge_lgr_set
    (before ++ bad :: after) name rng unidb
  = merge_lgrs validate_document parse_document merge_lgr_set
      (before ++ [bad]) name rng unidb.
Proof.
  intros Hbad. unfold merge_lgrs. by rewrite merge_loop_stop.
Qed.

Lemma merge_lgrs_stops_at_failure_witness :
  merge_lgrs (fun _ _ _ => None) parse_all_but_bad merge_first
    ([ustr "a.xml"] ++ ustr "bad.xml" :: [ustr "c.xml"; ustr "d.xml"]) None None None
  = merge_lgrs (fun _ _ _ => None) parse_all_but_bad merge_first
      ([ustr "a.xml"] ++ [ustr "bad.xml"]) None None None.
Proof.
  apply (merge_lgrs_stops_at_failure (fun _ _ _ => None) parse_all_but_bad merge_first
           [ustr "a.xml"] (ustr "bad.xml") [ustr "c.xml"; ustr "d.xml"] None None None).
  reflexivity.
Defined.

(** ** Single tokens and blank lines *)

Lemma split_aux_token (py : Interpreter) (tok s : ustring) :
  Forall (fun c => Py.isspace py c = false) s ->
  Py.split_aux py tok s = match tok ++ s with [] => [] | t => [t] end.
Proof.
  intros Hs. revert tok. induction Hs as [|c s Hc _ IH]; intros tok; simpl.
  - rewrite app_nil_r. by destruct tok.
  - rewrite Hc, IH, <- app_assoc. done.
Qed.

(** X20: a string without whitespace that holds a case-insensitive "U+" and
    has no "xn--" prefix is read as one token by parse_single_cp_input: the
    label has that one code point, or the error of the token is raised. *)
Theorem parse_label_input_single_token (py : Interpreter) (s : ustring)
    (dec : ustring -> result ustring) :
  Forall (fun c => Py.isspace py c = false) s ->
  has_U_plus_ci py s = true -> has_xn_prefix py s = false ->
  parse_label_input py s dec true
  = do v <- parse_single_cp_input py s; Return [v].
Proof.
  unfold has_U_plus_ci, has_xn_prefix, parse_label_input. intros Hs HU ->.
  rewrite HU, orb_true_r.
  assert (Py.contains (ustr " ") s = false) as Hsp.
  { apply contains_char_false. intros H.
    by pose proof (proj1 (Forall_forall _ _) Hs 32 H). }
  rewrite Hsp. unfold parse_codepoint_input, Py.split.
  rewrite split_aux_token by done. simpl app.
  destruct s as [|c r]; [done|]. simpl.
  by destruct (parse_single_cp_input py (c :: r)).
Qed.

Lemma parse_label_input_single_token_witness :
  parse_label_input ascii_only (ustr "abcU+0061") no_decoder true
  = Raise (ValueError (int_error_message ascii_only (ustr "abcU+0061"))).
Proof.
  etrans.
  - apply (parse_label_input_single_token ascii_only (ustr "abcU+0061") no_decoder);
      [| reflexivity | reflexivity].
    vm_compute ustr. repeat (constructor; [reflexivity|]). constructor.
  - reflexivity.
Defined.

(** X21: a line of whitespace only is skipped by read_labels, in both
    modes. *)
Theorem read_labels_blank_line (py : Interpreter) (unidb : UnicodeDatabase)
    (x : ustring) (input : list ustring) (do_raise keep_commented : bool) :
  Forall (fun c => Py.isspace py c = true) x ->
  read_labels py (x :: input) unidb do_raise keep_commented
  = read_labels py input unidb do_raise keep_commented.
Proof.
  intros Hx. cbn [read_labels]. unfold Py.strip.
  rewrite strip_by_spaces by done. reflexivity.
Qed.

Lemma read_labels_blank_line_witness :
  read_labels ascii_only [[32; 9; 13; 10]; ustr "abc"] plain_db true true
  = read_labels ascii_only [ustr "abc"] plain_db true true.
Proof.
  apply (read_labels_blank_line ascii_only plain_db [32; 9; 13; 10] [ustr "abc"] true true).
  repeat constructor.
Defined.
